(** * relaunchd: the manager lifecycle and job-admission engine

    A shallow embedding of [src/manager.cc] (class [Manager]) and the
    properties of its state machine, manifest admission, job registry
    and shutdown protocol.

    Conventions of the embedding.
    - A member function of [Manager] is a computation in the monad [M]:
      it receives the manager object, returns a value or throws, and
      leaves a new manager object.  What was mutated before a [throw]
      stays mutated, as in C++.
    - [std::unordered_map<std::string, std::unique_ptr<Job>>] is a
      [gmap string Job]; a range-for over it visits [map_to_list].
    - [nlohmann::json] is the inductive type [json]; its member functions
      [at], [contains], [operator[]], [emplace] and the conversion to
      [bool] are written out with the exceptions they throw.
    - Collaborators whose code lives in other translation units (the
      manifest parser, the Job class, the file system) are the fields of
      the class [Collaborators]; calls into them are also recorded in the
      [trace] of the manager.
    - A failed [assert] (when [NDEBUG] is not defined) ends the process; it
      is an exception of its own, [assertion_failed], which no handler of
      this file encloses.
    - [log_*] calls only write diagnostics and are left out. *)

From Stdlib Require Import ZArith.
From stdpp Require Import gmap strings list fin_maps pretty.

Local Open Scope Z_scope.

(** ** Exceptions and results *)

Inductive exn :=
  | logic_error (what : string)          (* std::logic_error *)
  | out_of_range (what : string)         (* std::out_of_range, map::at *)
  | json_out_of_range (key : string)     (* json::out_of_range.403 *)
  | json_type_error (id : Z)             (* json::type_error.3xx *)
  | assertion_failed (expr : string)     (* assert(), NDEBUG not defined *)
  | foreign_exception (what : string).   (* thrown by a collaborator *)

Inductive result (A : Type) :=
  | Ok (a : A)
  | Throw (e : exn).
Arguments Ok {A} a.
Arguments Throw {A} e.

Definition result_bind {A B} (r : result A) (k : A → result B) : result B :=
  match r with
  | Ok a => k a
  | Throw e => Throw e
  end.

(** ** JSON documents *)

#[warnings="-register-all"]
Inductive json :=
  | JNull
  | JBool (b : bool)
  | JNum (z : Z)
  | JStr (s : string)
  | JArr (l : list json)
  | JObj (o : gmap string json).

Module Json.

(** [j.at(key)] on a const or non-const value. *)
Definition at_ (j : json) (key : string) : result json :=
  match j with
  | JObj o =>
      match o !! key with
      | Some v => Ok v
      | None => Throw (json_out_of_range key)
      end
  | _ => Throw (json_type_error 304)
  end.

(** [j.contains(key)]: false on anything that is not an object. *)
Definition contains (j : json) (key : string) : bool :=
  match j with
  | JObj o => bool_decide (is_Some (o !! key))
  | _ => false
  end.

(** [j[key]] read on a non-const value: a null value behaves as an
    empty object and a missing key yields null. *)
Definition subscript (j : json) (key : string) : result json :=
  match j with
  | JNull => Ok JNull
  | JObj o => Ok (default JNull (o !! key))
  | _ => Throw (json_type_error 305)
  end.

(** [j[key]] used as an lvalue: [f] is what is done to the element the
    reference designates; the result is the new [j]. *)
Definition update (j : json) (key : string) (f : json → result json)
  : result json :=
  match j with
  | JNull => result_bind (f JNull) (λ v, Ok (JObj {[ key := v ]}))
  | JObj o =>
      result_bind (f (default JNull (o !! key)))
                  (λ v, Ok (JObj (<[ key := v ]> o)))
  | _ => Throw (json_type_error 305)
  end.

(** [j.emplace(key, v)]: a null value becomes an object; an existing
    key is kept. *)
Definition emplace (j : json) (key : string) (v : json) : result json :=
  match j with
  | JNull => Ok (JObj {[ key := v ]})
  | JObj o =>
      match o !! key with
      | Some _ => Ok (JObj o)
      | None => Ok (JObj (<[ key := v ]> o))
      end
  | _ => Throw (json_type_error 311)
  end.

(** The implicit conversion to [bool] used by [!j]. *)
Definition get_bool (j : json) : result bool :=
  match j with
  | JBool b => Ok b
  | _ => Throw (json_type_error 302)
  end.

(** [json::object({{"Enabled", enabled}})]. *)
Definition enabled_object (enabled : bool) : json :=
  JObj {[ "Enabled" := JBool enabled ]}.

End Json.

(** The default state document of [createOrOpenStatefile]. *)
Definition defaultStateDoc : json :=
  JObj (<[ "SchemaVersion" := JNum 1 ]> (<[ "Overrides" := JObj ∅ ]> ∅)).

(** What the state document says about a label, when the path
    [Overrides / label / Enabled] exists and holds a boolean. *)
Definition Overrides_Enabled (doc : json) (label : string) : option bool :=
  match doc with
  | JObj d =>
      match d !! "Overrides" with
      | Some (JObj o) =>
          match o !! label with
          | Some (JObj e) =>
              match e !! "Enabled" with
              | Some (JBool b) => Some b
              | _ => None
              end
          | _ => None
          end
      | _ => None
      end
  | _ => None
  end.

(** ** Data of the manager *)

Inductive States := Unconfigured | Running | GracefulShutdown | Finished.
Inductive Triggers := StartRequested | StopRequested | AllJobsExited.

#[global] Instance States_eq_dec : EqDecision States.
Proof. solve_decision. Defined.
#[global] Instance Triggers_eq_dec : EqDecision Triggers.
Proof. solve_decision. Defined.

(** The two fields of [manifest::Manifest] that the manager reads. *)
Record Manifest := mkManifest {
  label : string;
  disabled : bool;
}.

(** [Job::States]: this translation unit names only [Unloaded]. *)
Inductive JobStates := Unloaded | OtherJobState (n : nat).

#[global] Instance JobStates_eq_dec : EqDecision JobStates.
Proof. solve_decision. Defined.

(** Modelled from the spec: the class [Job] (job.h) is missing; these are
    the members that manager.cc reads, and a freshly constructed job has
    no process and exit status 0. *)
Record Job := mkJob {
  job_path : string;
  manifest : Manifest;
  job_fsm_state : JobStates;
  unload_requested : bool;
  pid : Z;
  last_exit_status : Z;
}.

Definition Job_new (path : string) (mf : Manifest) : Job :=
  {| job_path := path; manifest := mf; job_fsm_state := OtherJobState 0;
     unload_requested := false; pid := 0; last_exit_status := 0 |}.

Record Domain := mkDomain {
  statedir : string;
  load_paths : list string;
  domain_name : string;
}.

Inductive Signal := SIGPIPE | SIGINT | SIGTERM.

(** What the event manager may deliver while the manager waits. *)
Inductive Event :=
  | EvSignal (sig : Signal)
  | EvIpcMethod (name arg : string).

(** Calls that leave the manager: the event manager, the RPC channel and
    the member functions of the jobs. *)
Inductive Call :=
  | CallAddSignal (sig : Signal)
  | CallBindAndListen (sockfilename : string) (backlog : Z)
  | CallAddSocketRead
  | CallUnbindAndStopListening
  | CallWaitForEvent (timeout : option Z)
  | CallBootstrap (label : string)
  | CallUnloadJob (label : string) (force : bool)
  | CallForceUnloadJob (label : string).

Record Manager := mkManager {
  domain : Domain;
  state_file : json;
  fsm_state : States;
  jobs : gmap string Job;
  pending_jobs : gmap string Job;
  signal_handlers : bool;
  trace : list Call;
}.

Definition set_state_file (doc : json) (m : Manager) : Manager :=
  mkManager (domain m) doc (fsm_state m) (jobs m) (pending_jobs m)
            (signal_handlers m) (trace m).
Definition set_fsm_state (s : States) (m : Manager) : Manager :=
  mkManager (domain m) (state_file m) s (jobs m) (pending_jobs m)
            (signal_handlers m) (trace m).
Definition set_jobs (js : gmap string Job) (m : Manager) : Manager :=
  mkManager (domain m) (state_file m) (fsm_state m) js (pending_jobs m)
            (signal_handlers m) (trace m).
Definition set_pending_jobs (js : gmap string Job) (m : Manager) : Manager :=
  mkManager (domain m) (state_file m) (fsm_state m) (jobs m) js
            (signal_handlers m) (trace m).
Definition set_signal_handlers (b : bool) (m : Manager) : Manager :=
  mkManager (domain m) (state_file m) (fsm_state m) (jobs m) (pending_jobs m)
            b (trace m).
Definition add_trace (c : Call) (m : Manager) : Manager :=
  mkManager (domain m) (state_file m) (fsm_state m) (jobs m) (pending_jobs m)
            (signal_handlers m) (trace m ++ [c]).

(** ** The monad of member functions *)

Definition M (A : Type) : Type := Manager → result A * Manager.

Definition ret {A} (a : A) : M A := λ m, (Ok a, m).
Definition throw {A} (e : exn) : M A := λ m, (Throw e, m).
Definition bind {A B} (c : M A) (k : A → M B) : M B :=
  λ m, match c m with
       | (Ok a, m') => k a m'
       | (Throw e, m') => (Throw e, m')
       end.
Definition lift {A} (r : result A) : M A := λ m, (r, m).
Definition gets {A} (f : Manager → A) : M A := λ m, (Ok (f m), m).
Definition modify (f : Manager → Manager) : M unit := λ m, (Ok tt, f m).

(** [try { c } catch (...) { h }]. *)
Definition try_catch {A} (c : M A) (h : M A) : M A :=
  λ m, match c m with
       | (Ok a, m') => (Ok a, m')
       | (Throw _, m') => h m'
       end.

Notation "'let*' x ':=' c 'in' k" := (bind c (λ x, k))
  (at level 10, x name, c at level 100, k at level 200).
Notation "c1 '>>' c2" := (bind c1 (λ _, c2))
  (at level 100, c2 at level 200, right associativity).

(** Monadic range-for. *)
Fixpoint for_each {A} (l : list A) (body : A → M unit) : M unit :=
  match l with
  | [] => ret tt
  | x :: l' => body x >> for_each l' body
  end.

(** [std::filesystem::path::operator/] on POSIX paths, which have no root
    name: an absolute right operand replaces the left one; otherwise a
    separator is put between the two when the left one has a file name,
    that is, is not empty and does not end in a separator. *)
Fixpoint has_filename (p : string) : bool :=
  match p with
  | EmptyString => false
  | String c EmptyString => negb (bool_decide (String c EmptyString = "/"))
  | String _ rest => has_filename rest
  end.

Definition is_absolute (p : string) : bool :=
  match p with
  | String c _ => bool_decide (String c EmptyString = "/")
  | EmptyString => false
  end.

Definition path_append (p q : string) : string :=
  if is_absolute q then q
  else if has_filename p then p +:+ "/" +:+ q
  else p +:+ q.

(** ** Collaborators *)

Class Collaborators := {
  (** [manifest::parse(path)] *)
  manifest_parse : string → result json;
  (** [jsondata.get<manifest::Manifest>()] *)
  manifest_from_json : json → result Manifest;
  (** [job.unloadJob(force)] *)
  Job_unloadJob : bool → Job → result bool * Job;
  (** [job.forceUnloadJob()] *)
  Job_forceUnloadJob : Job → Job;
  (** [job.fsm.execute(Job::Triggers::Bootstrap)] *)
  Job_Bootstrap : Job → Job;
  (** [std::filesystem::exists] and [is_directory], which throw
      [filesystem_error] on an operating-system error *)
  fs_exists : string → result bool;
  fs_is_directory : string → result bool;
  (** [std::filesystem::directory_iterator]: the entries it delivers, in
      order, and the error that ends the iteration early, if any (thrown
      by its constructor or by an increment) *)
  fs_directory_iterator : string → list string * option exn;
  (** [state_file.setValue(doc)]: the write of the document, which may
      fail *)
  StateFile_setValue : json → result unit;
  (** build flags *)
  RELAUNCHD_UNIT_TESTS : bool;
  NDEBUG : bool;
}.

(** ** The member functions of [Manager] *)

Section ManagerCode.
Context `{Collaborators}.

(** Modelled from the spec: the classes [StateFile] and the FSM engine
    are missing.  A new manager holds the stored state document, or the
    default one when there is none, and starts in [Unconfigured] with
    both job maps empty. *)
Definition Manager_new (dom : Domain) (stored : option json) : Manager :=
  {| domain := dom; state_file := default defaultStateDoc stored;
     fsm_state := Unconfigured; jobs := ∅; pending_jobs := ∅;
     signal_handlers := false; trace := [] |}.

(** [Manager::jobExists]. *)
Definition jobExists (label : string) : M bool :=
  gets (λ m, bool_decide (is_Some (jobs m !! label))).

(** [Manager::getJob]: [jobs.at(label)]. *)
Definition getJob (label : string) : M Job :=
  λ m, match jobs m !! label with
       | Some job => (Ok job, m)
       | None => (Throw (out_of_range "unordered_map::at"), m)
       end.

(** [std::unordered_map::emplace]: an existing key is kept. *)
Definition map_emplace (key : string) (job : Job) (js : gmap string Job)
  : gmap string Job :=
  match js !! key with
  | Some _ => js
  | None => <[ key := job ]> js
  end.

(** Modelled from the spec: [StateFile::setValue] (state_file.hpp) is
    missing.  It persists the document atomically: [getValue] gives the new
    document once the write has returned, and when the write fails its
    exception propagates and the document is as before. *)
Definition setValue (doc : json) : M unit :=
  lift (StateFile_setValue doc) >> modify (set_state_file doc).

(** [Manager::overrideJobEnabled]. *)
Definition overrideJobEnabled (label : string) (enabled : bool) : M unit :=
  let* doc := gets state_file in
  let* overrides := lift (Json.at_ doc "Overrides") in
  let* doc' :=
    (if Json.contains overrides label then
       (* doc["Overrides"][label]["Enabled"] = enabled; *)
       lift (Json.update doc "Overrides" (λ o,
             Json.update o label (λ e,
             Json.update e "Enabled" (λ _, Ok (JBool enabled)))))
     else
       (* doc["Overrides"].emplace(label, {{"Enabled", enabled}}); *)
       lift (Json.update doc "Overrides" (λ o,
             Json.emplace o label (Json.enabled_object enabled)))) in
  setValue doc'.

(** [Manager::loadManifest(const json &, const std::string &, bool, bool)]. *)
Definition loadManifest (jsondata : json) (path : string)
    (overrideDisabled forceLoad : bool) : M bool :=
  let* st := gets fsm_state in
  if bool_decide (st = GracefulShutdown) then ret false else
  match manifest_from_json jsondata with
  | Throw _ => ret false
  | Ok mf =>
      (* Check for duplicate jobs *)
      let* active := jobExists (label mf) in
      let* pending :=
        gets (λ m, bool_decide (is_Some (pending_jobs m !! label mf))) in
      if active || pending then ret false else
      (if overrideDisabled then overrideJobEnabled (label mf) true
       else ret tt) >>
      (* Check if the job is disabled via the manifest. *)
      if disabled mf && negb forceLoad then ret false else
      (* Check if the job is disabled in the state file *)
      let* state := gets state_file in
      let* overrides := lift (Json.at_ state "Overrides") in
      let* refused :=
        (if Json.contains overrides (label mf) then
           let* job_state :=
             lift (result_bind (Json.subscript state "Overrides")
                               (λ o, Json.subscript o (label mf))) in
           let* enabled :=
             lift (result_bind (Json.at_ job_state "Enabled") Json.get_bool) in
           ret (negb enabled && negb forceLoad)
         else ret false) in
      if refused then ret false else
      let job := Job_new path mf in
      modify (λ m, set_pending_jobs
                     (map_emplace (label (manifest job)) job (pending_jobs m)) m) >>
      ret true
  end.

(** [Manager::loadManifest(const std::filesystem::path &, bool, bool)]. *)
Definition loadManifest_path (path : string)
    (overrideDisabled forceLoad : bool) : M bool :=
  let* obj := lift (manifest_parse path) in
  loadManifest obj path overrideDisabled forceLoad.

(** [job.unloadJob(force)] on the job object stored under [key]. *)
Definition call_unloadJob (key : string) (job : Job) (force : bool) : M bool :=
  λ m, let '(r, job') := Job_unloadJob force job in
       (r, add_trace (CallUnloadJob key force)
             (set_jobs (<[ key := job' ]> (jobs m)) m)).

(** [Manager::unloadJob(Job &, bool, bool)]; the reference designates the
    object that [jobs] owns under [ref]. *)
Definition unloadJob_job (ref : string)
    (overrideDisabled forceUnload : bool) : M bool :=
  let* job := getJob ref in
  let* found :=
    gets (λ m, bool_decide (is_Some (jobs m !! label (manifest job)))) in
  if found then
    (if overrideDisabled then overrideJobEnabled (label (manifest job)) false
     else ret tt) >>
    call_unloadJob ref job forceUnload
  else ret false.

(** [Manager::unloadJob(const Label &, bool, bool)]. *)
Definition unloadJob (label : string)
    (overrideDisabled forceUnload : bool) : M bool :=
  let* loaded := jobExists label in
  if negb loaded then ret false else
  unloadJob_job label overrideDisabled forceUnload.

(** The IPC method [delete_job] registered by the constructor. *)
Definition delete_job (arg : string) : M unit :=
  modify (λ m, set_jobs (delete arg (jobs m)) m).

(** [Manager::unloadAllJobs]. *)
Fixpoint unloadAllJobs_loop (l : list (string * Job)) (success : bool)
  : M bool :=
  match l with
  | [] => ret success
  | (key, job) :: l' =>
      if bool_decide (job_fsm_state job ≠ Unloaded)
         && negb (unload_requested job) then
        let* result := try_catch (call_unloadJob key job true) (ret false) in
        unloadAllJobs_loop l' (if result then success else false)
      else unloadAllJobs_loop l' success
  end.

Definition unloadAllJobs : M bool :=
  let* js := gets jobs in
  unloadAllJobs_loop (map_to_list js) true.

(** [Manager::startAllJobs]. *)
Definition startAllJobs_body (entry : string * Job) : M unit :=
  let '(label, job) := entry in
  let* loaded := jobExists label in
  if negb loaded then
    modify (λ m, set_jobs (map_emplace label job (jobs m)) m) >>
    let* j := getJob label in
    modify (λ m, add_trace (CallBootstrap label)
                   (set_jobs (<[ label := Job_Bootstrap j ]> (jobs m)) m))
  else
    if NDEBUG then ret tt else throw (assertion_failed "false").

Definition startAllJobs : M unit :=
  let* pending := gets pending_jobs in
  for_each (map_to_list pending) startAllJobs_body >>
  modify (set_pending_jobs ∅).

(** [Manager::loadAllManifests]: one attempt of the loop body, the value
    being whether [error] is set by it. *)
Definition loadAllManifests_try (file : string)
    (overrideDisabled forceLoad : bool) : M bool :=
  try_catch
    (let* loaded := loadManifest_path file overrideDisabled forceLoad in
     ret (negb loaded))
    (ret true).

Fixpoint loadAllManifests_dir (files : list string)
    (overrideDisabled forceLoad error : bool) : M bool :=
  match files with
  | [] => ret error
  | file :: rest =>
      let* failed := loadAllManifests_try file overrideDisabled forceLoad in
      loadAllManifests_dir rest overrideDisabled forceLoad
                           (if failed then true else error)
  end.

Definition loadAllManifests (path : string)
    (overrideDisabled forceLoad : bool) : M bool :=
  let* st := gets fsm_state in
  if bool_decide (st = GracefulShutdown) then ret false else
  let error := false in
  let* found := lift (fs_exists path) in
  if negb found then ret false else
  let* is_dir := lift (fs_is_directory path) in
  if is_dir then
    (* for (const auto &file : directory_iterator(path)) *)
    let '(files, failure) := fs_directory_iterator path in
    let* error := loadAllManifests_dir files overrideDisabled forceLoad error in
    match failure with
    | Some e => throw e
    | None => ret error
    end
  else
    let* failed := loadAllManifests_try path overrideDisabled forceLoad in
    ret (if failed then true else error).

(** [Manager::loadDefaultManifests]; the default arguments of
    [loadAllManifests] are declared in manager.h and taken as [false]. *)
Definition loadDefaultManifests : M unit :=
  let* st := gets fsm_state in
  if negb NDEBUG && negb (bool_decide (st = Unconfigured)) then
    throw (assertion_failed "fsm.state() == States::Unconfigured")
  else
    let* dom := gets domain in
    for_each (load_paths dom) (λ path, loadAllManifests path false false >> ret tt).

(** [Manager::clearStateFile]. *)
Definition clearStateFile : M unit :=
  if RELAUNCHD_UNIT_TESTS then modify (set_state_file defaultStateDoc)
  else throw (logic_error "This should not be used outside of testing").

(** [Manager::forceUnloadAllJobs]. *)
Definition forceUnloadAllJobs_body (entry : string * Job) : M unit :=
  let '(key, job) := entry in
  modify (λ m, add_trace (CallForceUnloadJob key)
                 (set_jobs (<[ key := Job_forceUnloadJob job ]> (jobs m)) m)).

Definition forceUnloadAllJobs : M unit :=
  let* js := gets jobs in
  for_each (map_to_list js) forceUnloadAllJobs_body >>
  modify (set_jobs ∅).

(** [Manager::setupSignalHandlers]. *)
Definition setupSignalHandlers : M unit :=
  modify (add_trace (CallAddSignal SIGPIPE)) >>
  modify (add_trace (CallAddSignal SIGINT)) >>
  modify (add_trace (CallAddSignal SIGTERM)) >>
  modify (set_signal_handlers true).

(** [Manager::startRpcServer]. *)
Definition startRpcServer : M unit :=
  let* dom := gets domain in
  let sockfilename := path_append (statedir dom) "rpc.sock" in
  modify (add_trace (CallBindAndListen sockfilename 1024)) >>
  modify (add_trace CallAddSocketRead).

(** [Manager::initFSM]: the transition table. *)
Record Transition := mkTransition {
  tr_from : States;
  tr_to : States;
  tr_trigger : Triggers;
  tr_guard : Manager → bool;
  tr_action : M unit;
}.

Definition transitions : list Transition :=
  [ mkTransition Unconfigured Finished StopRequested
      (λ _, true) (ret tt);
    mkTransition Unconfigured Running StartRequested
      (λ _, true)
      (setupSignalHandlers >> startRpcServer >>
       loadDefaultManifests >> startAllJobs);
    mkTransition Running Running StartRequested
      (λ m, negb (bool_decide (pending_jobs m = ∅)))
      startAllJobs;
    mkTransition Running GracefulShutdown StopRequested
      (λ _, true)
      (modify (add_trace CallUnbindAndStopListening) >>
       unloadAllJobs >> ret tt);
    mkTransition GracefulShutdown Finished StopRequested
      (λ _, true) (ret tt);
    mkTransition GracefulShutdown Finished AllJobsExited
      (λ _, true) (ret tt) ].

(** Modelled from the spec: [fsm.execute] (the FSM engine) is missing.
    The first row for the current state and the trigger whose guard holds
    runs its action and then enters its target state; a trigger with no
    such row does nothing. *)
Definition fsm_execute (trigger : Triggers) : M unit :=
  λ m, match find (λ tr, bool_decide (tr_from tr = fsm_state m)
                         && bool_decide (tr_trigger tr = trigger)
                         && tr_guard tr m) transitions with
       | Some tr => (tr_action tr >> modify (set_fsm_state (tr_to tr))) m
       | None => (Ok tt, m)
       end.

(** [Manager::handleShutdownSignal]. *)
Definition handleShutdownSignal (signame : string) : M unit :=
  let* st := gets fsm_state in
  match st with
  | Unconfigured => fsm_execute StopRequested
  | GracefulShutdown => forceUnloadAllJobs >> fsm_execute AllJobsExited
  | Running => fsm_execute StopRequested
  | Finished => ret tt
  end.

(** Modelled from the spec: [EventManager::waitForEvent] is missing.  It
    delivers the events that fired to the callbacks the manager
    registered, on the calling thread, and returns: the signal callbacks
    of [setupSignalHandlers] and the IPC method of the constructor. *)
Definition dispatch (ev : Event) : M unit :=
  match ev with
  | EvSignal sig =>
      let* installed := gets signal_handlers in
      if installed then
        match sig with
        | SIGPIPE => ret tt
        | SIGINT => handleShutdownSignal "SIGINT"
        | SIGTERM => handleShutdownSignal "SIGTERM"
        end
      else ret tt
  | EvIpcMethod name arg =>
      if bool_decide (name = "delete_job") then delete_job arg else ret tt
  end.

Definition waitForEvent (timeout : option Z) (fired : list Event) : M unit :=
  modify (add_trace (CallWaitForEvent timeout)) >>
  for_each fired dispatch.

(** [Manager::handleEvent]; [fired] is what the event manager delivers
    if it is asked to wait. *)
Definition handleEvent (timeout : option Z) (fired : list Event) : M bool :=
  let* st := gets fsm_state in
  match st with
  | Unconfigured => throw (logic_error "unsupported state")
  | Running => waitForEvent timeout fired
  | GracefulShutdown =>
      let* js := gets jobs in
      if bool_decide (js = ∅) then fsm_execute AllJobsExited
      else waitForEvent (Some 500) fired
  | Finished => ret tt
  end >>
  gets (λ m, negb (bool_decide (fsm_state m = Finished))).

(** [Manager::runMainLoop]: [while (handleEvent()) {}].  Each element of
    [ticks] is what one wait delivers; [None] says that the loop is still
    running when [ticks] is used up. *)
Fixpoint runMainLoop_loop (ticks : list (list Event))
  : Manager → option (result unit) * Manager :=
  λ m, match ticks with
       | [] => (None, m)
       | fired :: ticks' =>
           match handleEvent None fired m with
           | (Ok true, m') => runMainLoop_loop ticks' m'
           | (Ok false, m') => (Some (Ok tt), m')
           | (Throw e, m') => (Some (Throw e), m')
           end
       end.

Definition runMainLoop (ticks : list (list Event))
  : Manager → option (result unit) * Manager :=
  λ m, if bool_decide (fsm_state m ≠ Running)
       then (Some (Throw (logic_error "must call startRunning() first")), m)
       else runMainLoop_loop ticks m.

(** [Manager::runOnce]. *)
Definition runOnce (timeout : option Z) (fired : list Event) : M bool :=
  let* st := gets fsm_state in
  if bool_decide (st ≠ Running)
  then throw (logic_error "must call startRunning() first")
  else handleEvent timeout fired.

(** [Manager::startRunning] and [Manager::stopRunning]. *)
Definition startRunning : M unit := fsm_execute StartRequested.
Definition stopRunning : M unit := fsm_execute StopRequested.

End ManagerCode.

(** ** Specification-side definitions *)

Section SpecSide.
Context `{Collaborators}.

(** The sub-loads of a batch, one per entry and in order, each one run in
    the manager the previous one left; the value kept for an entry is what
    [loadManifest] returned there, or what it threw. *)
Fixpoint sub_loads (files : list string) (overrideDisabled forceLoad : bool)
    (m : Manager) : list (result bool) * Manager :=
  match files with
  | [] => ([], m)
  | file :: rest =>
      let '(r, m1) := loadManifest_path file overrideDisabled forceLoad m in
      let '(rs, m2) := sub_loads rest overrideDisabled forceLoad m1 in
      (r :: rs, m2)
  end.

End SpecSide.

(** What a loop over the job maps leaves alone. *)
Definition same_admission (m m' : Manager) : Prop :=
  fsm_state m' = fsm_state m ∧ state_file m' = state_file m ∧
  pending_jobs m' = pending_jobs m.

(** The check of the state file made by [loadManifest] (whether the load
    is refused there), as a function of the document. *)
Definition refused_by_state_file (state : json) (label : string)
    (forceLoad : bool) : result bool :=
  result_bind (Json.at_ state "Overrides") (λ overrides,
    if Json.contains overrides label then
      result_bind (result_bind (Json.subscript state "Overrides")
                               (λ o, Json.subscript o label)) (λ job_state,
      result_bind (result_bind (Json.at_ job_state "Enabled") Json.get_bool)
                  (λ enabled, Ok (negb enabled && negb forceLoad)))
    else Ok false).

(** The document that [overrideJobEnabled] hands to [setValue], as a
    function of the current one. *)
Definition override_doc (doc : json) (label : string) (enabled : bool)
  : result json :=
  result_bind (Json.at_ doc "Overrides") (λ overrides,
    if Json.contains overrides label then
      Json.update doc "Overrides" (λ o,
      Json.update o label (λ e,
      Json.update e "Enabled" (λ _, Ok (JBool enabled))))
    else
      Json.update doc "Overrides" (λ o,
      Json.emplace o label (Json.enabled_object enabled))).

(** A sub-load reports failure when it returns false or throws. *)
Definition reported_failure (r : result bool) : bool :=
  match r with
  | Ok true => false
  | _ => true
  end.


(** The error of the filesystem that ends a batch on an existing path, if
    any. *)
Definition batch_failure `{Collaborators} (path : string) : option exn :=
  match fs_is_directory path with
  | Ok true => (fs_directory_iterator path).2
  | Ok false => None
  | Throw e => Some e
  end.

(** A shutdown signal is one whose callback is [handleShutdownSignal]. *)
Definition is_shutdown_signal (ev : Event) : bool :=
  match ev with
  | EvSignal SIGINT | EvSignal SIGTERM => true
  | _ => false
  end.

(** ** A concrete environment, for running the model *)

Module Sample.

(** Modelled from the spec: the conversion of a document to
    [manifest::Manifest] (manifest.h) is missing; a manifest has at least
    a [Label] string and an optional [Disabled] boolean. *)
Definition manifest_of_json (j : json) : result Manifest :=
  match j with
  | JObj o =>
      match o !! "Label" with
      | Some (JStr l) =>
          match o !! "Disabled" with
          | None => Ok (mkManifest l false)
          | Some (JBool b) => Ok (mkManifest l b)
          | Some _ => Throw (json_type_error 302)
          end
      | Some _ => Throw (json_type_error 302)
      | None => Throw (json_out_of_range "Label")
      end
  | _ => Throw (json_type_error 304)
  end.

Definition doc_a : json := JObj {[ "Label" := JStr "a" ]}.
Definition doc_a_disabled : json :=
  JObj (<[ "Label" := JStr "a" ]> {[ "Disabled" := JBool true ]}).
Definition doc_b : json := JObj {[ "Label" := JStr "b" ]}.

Definition parse (path : string) : result json :=
  if bool_decide (path = "/etc/relaunchd/a.json") then Ok doc_a
  else if bool_decide (path = "/etc/relaunchd/b.json") then Ok doc_b
  else if bool_decide (path = "/mnt/flaky/b.json") then Ok doc_b
  else Throw (foreign_exception "parse error").

Definition unload (force : bool) (j : Job) : result bool * Job :=
  (Ok true,
   mkJob (job_path j) (manifest j) (job_fsm_state j) true (pid j)
         (last_exit_status j)).

Definition force_unload (j : Job) : Job :=
  mkJob (job_path j) (manifest j) Unloaded true 0 (last_exit_status j).

Definition bootstrap (j : Job) : Job :=
  mkJob (job_path j) (manifest j) (OtherJobState 1) (unload_requested j)
        (pid j) (last_exit_status j).

Definition dir_entries : list string :=
  [ "/etc/relaunchd/a.json"; "/etc/relaunchd/bad.json";
    "/etc/relaunchd/b.json" ].

Definition env : Collaborators :=
  {| manifest_parse := parse;
     manifest_from_json := manifest_of_json;
     Job_unloadJob := unload;
     Job_forceUnloadJob := force_unload;
     Job_Bootstrap := bootstrap;
     fs_exists := λ p, Ok (bool_decide (p = "/etc/relaunchd")
                           || bool_decide (p = "/mnt/flaky")
                           || bool_decide (p ∈ dir_entries));
     fs_is_directory := λ p, Ok (bool_decide (p = "/etc/relaunchd")
                                 || bool_decide (p = "/mnt/flaky"));
     fs_directory_iterator :=
       λ p, if bool_decide (p = "/etc/relaunchd") then (dir_entries, None)
            else if bool_decide (p = "/mnt/flaky")
            then ([ "/mnt/flaky/b.json" ],
                  Some (foreign_exception "filesystem error"))
            else ([], Some (foreign_exception "filesystem error"));
     StateFile_setValue := λ _, Ok tt;
     RELAUNCHD_UNIT_TESTS := false;
     NDEBUG := false |}.

Definition dom : Domain :=
  {| statedir := "/var/db/relaunchd"; load_paths := [ "/etc/relaunchd" ];
     domain_name := "system" |}.

(** A state document that enables label [a]. *)
Definition doc_enabled_a : json :=
  JObj (<[ "SchemaVersion" := JNum 1 ]>
        {[ "Overrides" := JObj {[ "a" := Json.enabled_object true ]} ]}).

(** A state document that disables label [a]. *)
Definition doc_disabled_a : json :=
  JObj (<[ "SchemaVersion" := JNum 1 ]>
        {[ "Overrides" := JObj {[ "a" := Json.enabled_object false ]} ]}).

(** Managers in each state, reached through the member functions. *)
Definition m_unconfigured : Manager := @Manager_new dom None.
Definition m_seeded : Manager := @Manager_new dom (Some doc_enabled_a).
Definition m_running : Manager := snd (@startRunning env m_unconfigured).
Definition m_shutdown : Manager := snd (@stopRunning env m_running).
Definition m_finished : Manager := snd (@stopRunning env m_shutdown).
(** Running, with nothing found in the load paths. *)
Definition m_idle : Manager :=
  snd (@startRunning env (@Manager_new (mkDomain "/var/db/relaunchd" [] "user") None)).
(** Running, with label [a] loaded but not yet started. *)
Definition m_pending_a : Manager :=
  snd (@loadManifest env doc_a "/etc/relaunchd/a.json" false false m_idle).
(** Running, with [a] as the only job, and then shutting down. *)
Definition m_one_job : Manager := snd (@startRunning env m_pending_a).
Definition m_one_job_shutdown : Manager := snd (@stopRunning env m_one_job).
(** Shutting down with no job left. *)
Definition m_drained : Manager := snd (@stopRunning env m_idle).

End Sample.

(** ** The remaining member functions *)

(** Collaborators of the control operations: the table of signal names
    (signal_names.h), the constructor of [Label] and [Job::killJob]. *)
Class ControlCollaborators := {
  (** [getSignalByName(signame_or_number)] *)
  getSignalByName : string → option Z;
  (** [Label{buf}] *)
  Label_new : string → result string;
  (** [job.killJob(signum)] *)
  Job_killJob : Z → Job → bool * Job;
}.

(** [j.get_to(std::string &)]. *)
Definition json_get_string (j : json) : result string :=
  match j with
  | JStr s => Ok s
  | _ => Throw (json_type_error 302)
  end.

(** [Manager::stateToString] and [Manager::triggerToString]. *)
Definition stateToString (state : States) : string :=
  match state with
  | Unconfigured => "unconfigured"
  | Running => "running"
  | GracefulShutdown => "shutting-down"
  | Finished => "finished"
  end.

Definition triggerToString (trigger : Triggers) : string :=
  match trigger with
  | StartRequested => "StartRequested"
  | StopRequested => "StopRequested"
  | AllJobsExited => "AllJobsExited"
  end.

(** [Manager::listJobs]: the entry of one job; [std::to_string] of an
    integer is its decimal notation. *)
Definition listJobs_entry (job : Job) : json :=
  let pid := if bool_decide (pid job = 0) then "-" else pretty (pid job) in
  JObj (<[ "Label" := JStr (label (manifest job)) ]>
       (<[ "PID" := JStr pid ]>
        {[ "LastExitStatus" := JNum (last_exit_status job) ]})).

Definition listJobs : M json :=
  let* js := gets jobs in
  ret (JArr ((λ entry, listJobs_entry entry.2) <$> map_to_list js)).

(** [Manager::getDomain]. *)
Definition getDomain : M Domain := gets domain.

Section ControlCode.
Context `{Collaborators} `{ControlCollaborators}.

(** [Manager::unloadJob(const std::filesystem::path &, bool, bool)]. *)
Definition unloadJob_path (path : string)
    (overrideDisabled forceUnload : bool) : M bool :=
  match manifest_parse path with
  | Throw _ => ret false
  | Ok obj =>
      if Json.contains obj "Label" then
        let* buf := lift (result_bind (Json.at_ obj "Label") json_get_string) in
        let* label := lift (Label_new buf) in
        unloadJob label overrideDisabled forceUnload
      else ret false
  end.

(** [Manager::killJob]. *)
Definition killJob (label signame_or_number : string) : M bool :=
  match getSignalByName signame_or_number with
  | None => ret false
  | Some signum =>
      let* loaded := jobExists label in
      if negb loaded then ret false else
      let* job := getJob label in
      λ m, let '(success, job') := Job_killJob signum job in
           (Ok success, set_jobs (<[ label := job' ]> (jobs m)) m)
  end.

(** [Manager::dumpJob]; [Job::dump] only writes diagnostics. *)
Definition dumpJob (label : string) : M unit :=
  getJob label >> ret tt.

(** [Manager::~Manager]. *)
Definition Manager_destroy : M unit :=
  modify (add_trace CallUnbindAndStopListening) >>
  forceUnloadAllJobs.

End ControlCode.

(** ** Specification-side definitions for the further properties *)

(** A computation keeps a relation between the manager it receives and
    the manager it leaves, whether it returns or throws. *)
Definition keeps {A} (R : relation Manager) (c : M A) : Prop :=
  ∀ m r m', c m = (r, m') → R m m'.

(** An observation of the manager has the same value before and after. *)
Definition same {B} (f : Manager → B) : relation Manager :=
  λ m m', f m' = f m.

(** A property of the manager that holds after whenever it held before. *)
Definition preserves (P : Manager → Prop) : relation Manager :=
  λ m m', P m → P m'.

(** Observations that do not depend on the state document nor on the
    pending jobs. *)
Class AdmissionBlind {B} (f : Manager → B) : Prop := {
  blind_state_file : ∀ doc m, f (set_state_file doc m) = f m;
  blind_pending_jobs : ∀ js m, f (set_pending_jobs js m) = f m;
}.

(** The order in which the states of the manager follow each other. *)
Definition state_rank (s : States) : nat :=
  match s with
  | Unconfigured => 0
  | Running => 1
  | GracefulShutdown => 2
  | Finished => 3
  end.

Definition never_back : relation Manager :=
  λ m m', (state_rank (fsm_state m) ≤ state_rank (fsm_state m'))%nat.

(** The error of the filesystem that keeps [loadAllManifests] from
    returning on a path, if any. *)
Definition filesystem_failure `{Collaborators} (path : string) : option exn :=
  match fs_exists path with
  | Throw e => Some e
  | Ok false => None
  | Ok true => batch_failure path
  end.

(** The manager once [setupSignalHandlers] and [startRpcServer] have run:
    the handlers are installed and five calls have been made. *)
Definition listening (m : Manager) : Manager :=
  mkManager (domain m) (state_file m) (fsm_state m) (jobs m)
            (pending_jobs m) true
            (trace m ++
             [ CallAddSignal SIGPIPE; CallAddSignal SIGINT;
               CallAddSignal SIGTERM;
               CallBindAndListen
                 (path_append (statedir (domain m)) "rpc.sock") 1024;
               CallAddSocketRead ]).

(** The members of the record that [Overrides] holds for a label: none
    when there is no record or a null one. *)
Definition record_members (record : option json) : gmap string json :=
  match record with
  | Some (JObj e) => e
  | _ => ∅
  end.

(** The events whose callbacks this translation unit registers and that do
    not shut the manager down: [SIGPIPE] and a call of the IPC method
    [delete_job]. *)
Definition own_quiet_event (ev : Event) : bool :=
  match ev with
  | EvSignal SIGPIPE => true
  | EvSignal _ => false
  | EvIpcMethod name _ => bool_decide (name = "delete_job")
  end.

(** No label is pending and active at once. *)
Definition disjoint_jobs (m : Manager) : Prop :=
  ∀ k, is_Some (pending_jobs m !! k) → jobs m !! k = None.

(** The schema of the state file: [Overrides] is an object whose members
    are objects with a boolean [Enabled]. *)
Definition doc_follows_schema (doc : json) : Prop :=
  ∃ d o, doc = JObj d ∧ d !! "Overrides" = Some (JObj o) ∧
         ∀ l v, o !! l = Some v →
                ∃ e b, v = JObj e ∧ e !! "Enabled" = Some (JBool b).

(** The jobs that [unloadAllJobs] asks to unload, and what it leaves of a
    job. *)
Definition unload_eligible (job : Job) : bool :=
  bool_decide (job_fsm_state job ≠ Unloaded) && negb (unload_requested job).

Definition after_unloadAll `{Collaborators} (job : Job) : Job :=
  if unload_eligible job then (Job_unloadJob true job).2 else job.

Definition unloadAll_ok `{Collaborators} (job : Job) : bool :=
  if unload_eligible job then
    match (Job_unloadJob true job).1 with
    | Ok true => true
    | _ => false
    end
  else true.

(** The jobs left when the [delete_job] calls among the events of a wait
    have been served. *)
Definition deleted_jobs (fired : list Event) (js : gmap string Job)
  : gmap string Job :=
  foldl (λ js ev,
           match ev with
           | EvIpcMethod name arg =>
               if bool_decide (name = "delete_job") then delete arg js else js
           | EvSignal _ => js
           end) js fired.

(** The label of an entry of [listJobs], and its process column. *)
Definition entry_field (field : string) (entry : json) : option json :=
  match entry with
  | JObj o => o !! field
  | _ => None
  end.

(** The calls of [unloadAllJobs] over a list of entries of [jobs]. *)
Definition unloadAll_calls (l : list (string * Job)) : list Call :=
  flat_map (λ entry, if unload_eligible entry.2
                     then [CallUnloadJob entry.1 true] else []) l.

(** Every pending job of the first manager is a pending job of the
    second. *)
Definition pending_grows : relation Manager :=
  λ m m', pending_jobs m ⊆ pending_jobs m'.

(** Every active job of the first manager is, unchanged, an active job of
    the second. *)
Definition jobs_grow : relation Manager :=
  λ m m', jobs m ⊆ jobs m'.

#[global] Instance Signal_eq_dec : EqDecision Signal.
Proof. solve_decision. Defined.
#[global] Instance Event_eq_dec : EqDecision Event.
Proof. solve_decision. Defined.

(** The operations of the manager that a host program or an RPC handler
    calls, with their arguments; signals and IPC calls reach the manager
    through the events of a tick. *)
Inductive Request :=
  | ReqStartRunning
  | ReqStopRunning
  | ReqRunMainLoop (ticks : list (list Event))
  | ReqRunOnce (timeout : option Z) (fired : list Event)
  | ReqHandleEvent (timeout : option Z) (fired : list Event)
  | ReqLoadManifest (jsondata : json) (path : string)
      (overrideDisabled forceLoad : bool)
  | ReqLoadManifestPath (path : string) (overrideDisabled forceLoad : bool)
  | ReqLoadAllManifests (path : string) (overrideDisabled forceLoad : bool)
  | ReqUnloadJob (label : string) (overrideDisabled forceUnload : bool)
  | ReqUnloadJobPath (path : string) (overrideDisabled forceUnload : bool)
  | ReqListJobs
  | ReqKillJob (label signame : string)
  | ReqDumpJob (label : string)
  | ReqClearStateFile.

Section Serving.
Context `{Collaborators} `{ControlCollaborators}.

(** The manager left by a request, whether it returned or threw. *)
Definition serve (req : Request) (m : Manager) : Manager :=
  match req with
  | ReqStartRunning => (startRunning m).2
  | ReqStopRunning => (stopRunning m).2
  | ReqRunMainLoop ticks => (runMainLoop ticks m).2
  | ReqRunOnce timeout fired => (runOnce timeout fired m).2
  | ReqHandleEvent timeout fired => (handleEvent timeout fired m).2
  | ReqLoadManifest jsondata path od fl =>
      (loadManifest jsondata path od fl m).2
  | ReqLoadManifestPath path od fl => (loadManifest_path path od fl m).2
  | ReqLoadAllManifests path od fl => (loadAllManifests path od fl m).2
  | ReqUnloadJob label od force => (unloadJob label od force m).2
  | ReqUnloadJobPath path od force => (unloadJob_path path od force m).2
  | ReqListJobs => (listJobs m).2
  | ReqKillJob label signame => (killJob label signame m).2
  | ReqDumpJob label => (dumpJob label m).2
  | ReqClearStateFile => (clearStateFile m).2
  end.

Definition serve_all (reqs : list Request) (m : Manager) : Manager :=
  foldl (λ m req, serve req m) m reqs.

End Serving.

(** The registry of jobs is kept: same state, same pending jobs, and no
    new label among the active jobs. *)
Definition registry_kept : relation Manager :=
  λ m m', fsm_state m' = fsm_state m ∧
          pending_jobs m' = pending_jobs m ∧
          dom (jobs m') ⊆ dom (jobs m).


(** The relations above are preorders, and the observations that
    admission does not touch. *)
#[global] Instance same_refl {B} (f : Manager → B) : Reflexive (same f).
Proof. by intros m. Qed.
#[global] Instance same_trans {B} (f : Manager → B) : Transitive (same f).
Proof. unfold same. intros m1 m2 m3 H12 H23. congruence. Qed.
#[global] Instance never_back_refl : Reflexive never_back.
Proof. intros m. unfold never_back. lia. Qed.
#[global] Instance never_back_trans : Transitive never_back.
Proof. unfold never_back. intros m1 m2 m3 H12 H23. lia. Qed.
#[global] Instance fsm_state_blind : AdmissionBlind fsm_state.
Proof. by split. Qed.
#[global] Instance jobs_blind : AdmissionBlind jobs.
Proof. by split. Qed.
#[global] Instance trace_blind : AdmissionBlind trace.
Proof. by split. Qed.
#[global] Instance signal_handlers_blind : AdmissionBlind signal_handlers.
Proof. by split. Qed.
#[global] Instance domain_blind : AdmissionBlind domain.
Proof. by split. Qed.
#[global] Instance preserves_refl P : Reflexive (preserves P).
Proof. by intros m Hm. Qed.
#[global] Instance preserves_trans P : Transitive (preserves P).
Proof. unfold preserves. intros m1 m2 m3 H12 H23. auto. Qed.
#[global] Instance pending_grows_refl : Reflexive pending_grows.
Proof. intros m. unfold pending_grows. done. Qed.
#[global] Instance pending_grows_trans : Transitive pending_grows.
Proof. unfold pending_grows. intros m1 m2 m3 H12 H23. by etrans. Qed.
#[global] Instance jobs_grow_refl : Reflexive jobs_grow.
Proof. intros m. unfold jobs_grow. done. Qed.
#[global] Instance jobs_grow_trans : Transitive jobs_grow.
Proof. unfold jobs_grow. intros m1 m2 m3 H12 H23. by etrans. Qed.
#[global] Instance registry_kept_refl : Reflexive registry_kept.
Proof. intros m. by unfold registry_kept. Qed.
#[global] Instance registry_kept_trans : Transitive registry_kept.
Proof.
  intros m1 m2 m3 (Hst & Hp & Hdom) (Hst' & Hp' & Hdom').
  unfold registry_kept. split_and!; [congruence..|by etrans].
Qed.

(** ** A concrete setting for the control operations *)

Module SampleControl.

(** Two entries of the table of signal names, by name and by number. *)
Definition signal_by_name (s : string) : option Z :=
  if bool_decide (s = "SIGTERM") || bool_decide (s = "15") then Some 15
  else if bool_decide (s = "SIGKILL") || bool_decide (s = "9") then Some 9
  else None.

(** A job without a process cannot be signalled. *)
Definition kill (signum : Z) (j : Job) : bool * Job :=
  (bool_decide (pid j ≠ 0), j).

Definition control : ControlCollaborators :=
  {| getSignalByName := signal_by_name;
     Label_new := λ buf, if bool_decide (buf = "")
                         then Throw (foreign_exception "empty label")
                         else Ok buf;
     Job_killJob := kill |}.

Definition doc_c : json := JObj {[ "Label" := JStr "c" ]}.

(** Running, with [a] active and [b] loaded but not yet started. *)
Definition m_two : Manager :=
  snd (@loadManifest Sample.env Sample.doc_b "/etc/relaunchd/b.json"
         false false Sample.m_one_job).

(** A new manager whose state directory is the working directory and
    whose only load path is a directory that fails while it is read. *)
Definition m_flaky : Manager :=
  @Manager_new (mkDomain "" [ "/mnt/flaky" ] "user") None.


End SampleControl.

(** * Properties *)

Ltac run_monad :=
  unfold bind, ret, gets, lift, modify, throw, try_catch; simpl.

Lemma for_each_nil {A} (body : A → M unit) m :
  for_each [] body m = (Ok tt, m).
Proof. reflexivity. Qed.

Lemma for_each_cons {A} (x : A) l (body : A → M unit) m :
  for_each (x :: l) body m =
    match body x m with
    | (Ok _, m') => for_each l body m'
    | (Throw e, m') => (Throw e, m')
    end.
Proof. reflexivity. Qed.

Section Lifecycle.
Context `{Collaborators}.

(** ** The state machine *)

Lemma fsm_execute_Finished (trigger : Triggers) (m : Manager) :
  fsm_state m = Finished → fsm_execute trigger m = (Ok tt, m).
Proof.
  intros Hst. unfold fsm_execute. rewrite Hst.
  destruct trigger; reflexivity.
Qed.

Lemma fsm_execute_AllJobsExited (m : Manager) :
  fsm_state m = GracefulShutdown →
  fsm_execute AllJobsExited m = (Ok tt, set_fsm_state Finished m).
Proof.
  intros Hst. unfold fsm_execute. rewrite Hst. reflexivity.
Qed.

(** C9.  [Finished] is terminal: no trigger fired in [Finished] changes
    anything, and [handleEvent] in [Finished] returns false without
    waiting (the manager, and so its trace of calls, is unchanged,
    whatever the event manager has to deliver). *)
Theorem Finished_is_terminal (m : Manager) :
  fsm_state m = Finished →
  (∀ trigger, fsm_execute trigger m = (Ok tt, m)) ∧
  (∀ timeout fired, handleEvent timeout fired m = (Ok false, m)).
Proof.
  intros Hst. split.
  - intros trigger. by apply fsm_execute_Finished.
  - intros timeout fired. unfold handleEvent. run_monad.
    rewrite Hst. simpl. by rewrite Hst.
Qed.

(** C7.  Operations in an invalid state throw [std::logic_error] and
    return no value: [runMainLoop] and [runOnce] outside [Running],
    [handleEvent] in [Unconfigured], and [clearStateFile] in a build
    without [RELAUNCHD_UNIT_TESTS].  The manager is left as it was. *)
Theorem invalid_state_operations_throw (m : Manager) :
  (fsm_state m ≠ Running →
     (∀ ticks, runMainLoop ticks m =
        (Some (Throw (logic_error "must call startRunning() first")), m)) ∧
     (∀ timeout fired, runOnce timeout fired m =
        (Throw (logic_error "must call startRunning() first"), m))) ∧
  (fsm_state m = Unconfigured →
     ∀ timeout fired, handleEvent timeout fired m =
        (Throw (logic_error "unsupported state"), m)) ∧
  (RELAUNCHD_UNIT_TESTS = false →
     clearStateFile m =
        (Throw (logic_error "This should not be used outside of testing"), m)).
Proof.
  repeat split.
  - intros ticks. unfold runMainLoop. by rewrite bool_decide_true.
  - intros timeout fired. unfold runOnce. run_monad.
    by rewrite bool_decide_true.
  - intros Hst timeout fired. unfold handleEvent. run_monad.
    by rewrite Hst.
  - intros Hflag. unfold clearStateFile. by rewrite Hflag.
Qed.

(** ** Admission during shutdown *)

Lemma loadManifest_GracefulShutdown jsondata path od fl (m : Manager) :
  fsm_state m = GracefulShutdown →
  loadManifest jsondata path od fl m = (Ok false, m).
Proof.
  intros Hst. unfold loadManifest. run_monad. by rewrite Hst.
Qed.

(** While the manager is in [GracefulShutdown], [loadManifest] and
    [loadAllManifests] return false and leave the manager (so [pending_jobs]
    and [jobs]) as it was.  The overload of [loadManifest] that takes a
    path parses before it looks at the state: a parse error is thrown on,
    and nothing changes either. *)
Lemma refused_in_GracefulShutdown (m : Manager) :
  fsm_state m = GracefulShutdown →
  (∀ jsondata path od fl,
     loadManifest jsondata path od fl m = (Ok false, m)) ∧
  (∀ path od fl, loadAllManifests path od fl m = (Ok false, m)) ∧
  (∀ path od fl,
     loadManifest_path path od fl m =
       match manifest_parse path with
       | Ok _ => (Ok false, m)
       | Throw e => (Throw e, m)
       end).
Proof.
  intros Hst. split_and!.
  - intros. by apply loadManifest_GracefulShutdown.
  - intros. unfold loadAllManifests. run_monad. by rewrite Hst.
  - intros. unfold loadManifest_path. run_monad.
    destruct (manifest_parse path); simpl; [|done].
    by rewrite loadManifest_GracefulShutdown.
Qed.

End Lifecycle.

Section Registry.
Context `{Collaborators}.

(** ** Promotion of pending jobs *)

Lemma same_admission_refl m : same_admission m m.
Proof. done. Qed.

Lemma same_admission_trans m1 m2 m3 :
  same_admission m1 m2 → same_admission m2 m3 → same_admission m1 m3.
Proof. unfold same_admission. intros (-> & -> & ->) (-> & -> & ->). done. Qed.

Lemma startAllJobs_body_spec key job m r m' :
  startAllJobs_body (key, job) m = (r, m') →
  same_admission m m' ∧
  (∀ l, is_Some (jobs m !! l) → is_Some (jobs m' !! l)) ∧
  (r = Ok tt → is_Some (jobs m' !! key)).
Proof.
  unfold startAllJobs_body, jobExists, getJob, map_emplace. run_monad.
  destruct (jobs m !! key) as [old|] eqn:Hold.
  - rewrite bool_decide_true by eauto. simpl.
    destruct NDEBUG; intros [= <- <-]; (split; [done|]);
      (split; [done|]); intros; by eauto.
  - rewrite bool_decide_false by (intros [? ?]; done). simpl.
    rewrite !Hold, lookup_insert_eq. intros [= <- <-]. simpl.
    split; [done|]. split.
    + intros l Hl. rewrite !lookup_insert_is_Some'. auto.
    + intros _. rewrite lookup_insert_eq. eauto.
Qed.

Lemma startAllJobs_loop_spec l m r m' :
  for_each l startAllJobs_body m = (r, m') →
  same_admission m m' ∧
  (∀ k, is_Some (jobs m !! k) → is_Some (jobs m' !! k)) ∧
  (r = Ok tt → ∀ k, k ∈ l.*1 → is_Some (jobs m' !! k)).
Proof.
  revert m. induction l as [|[key job] l IH]; intros m.
  - intros [= <- <-]. split; [done|]. split; [done|].
    intros _ k Hk. by apply elem_of_nil in Hk.
  - rewrite for_each_cons.
    destruct (startAllJobs_body (key, job) m) as [[[]|e] m1] eqn:Hbody;
      apply startAllJobs_body_spec in Hbody as (Hsame & Hkeep & Hkey).
    + intros Hrest. apply IH in Hrest as (Hsame' & Hkeep' & Hall).
      split; [by eapply same_admission_trans|]. split; [by auto|].
      intros Hr k [->|Hk]%elem_of_cons; [by auto|by apply Hall].
    + intros [= <- <-]. split; [done|]. split; [done|]. done.
Qed.

Lemma startAllJobs_spec m r m' :
  startAllJobs m = (r, m') →
  fsm_state m' = fsm_state m ∧ state_file m' = state_file m ∧
  (∀ k, is_Some (jobs m !! k) → is_Some (jobs m' !! k)) ∧
  match r with
  | Ok _ =>
      pending_jobs m' = ∅ ∧
      ∀ k, is_Some (pending_jobs m !! k) → is_Some (jobs m' !! k)
  | Throw _ => pending_jobs m' = pending_jobs m
  end.
Proof.
  unfold startAllJobs. run_monad.
  destruct (for_each (map_to_list (pending_jobs m)) startAllJobs_body m)
    as [[[]|e] m1] eqn:Hloop;
    apply startAllJobs_loop_spec in Hloop as ((Hst & Hdoc & Hpend) & Hkeep & Hall);
    intros [= <- <-]; simpl.
  - repeat split; try done.
    intros k [job Hk]. apply Hall; [done|].
    apply list_elem_of_fmap. exists (k, job). split; [done|].
    by apply elem_of_map_to_list.
  - done.
Qed.

(** ** Duplicate labels *)

Lemma loadManifest_duplicate jsondata mf path od fl (m : Manager) :
  manifest_from_json jsondata = Ok mf →
  is_Some (pending_jobs m !! label mf) ∨ is_Some (jobs m !! label mf) →
  loadManifest jsondata path od fl m = (Ok false, m).
Proof.
  intros Hmf Hdup. unfold loadManifest, jobExists. run_monad.
  case_bool_decide; [done|]. rewrite Hmf. run_monad.
  destruct Hdup as [Hp|Ha].
  - rewrite (bool_decide_true _ Hp). by rewrite orb_true_r.
  - by rewrite (bool_decide_true _ Ha).
Qed.

(** C4.  A manifest whose label is already in [pending_jobs] or in [jobs]
    is rejected: [loadManifest] returns false and the manager (both maps
    and the state document) is unchanged.  The same holds after
    [startAllJobs] has run, which moves the pending labels to [jobs]. *)
Theorem duplicate_label_rejected jsondata mf path od fl (m : Manager) :
  manifest_from_json jsondata = Ok mf →
  is_Some (pending_jobs m !! label mf) ∨ is_Some (jobs m !! label mf) →
  loadManifest jsondata path od fl m = (Ok false, m) ∧
  ∀ r m', startAllJobs m = (r, m') →
    (r = Ok tt → pending_jobs m' = ∅ ∧ is_Some (jobs m' !! label mf)) ∧
    loadManifest jsondata path od fl m' = (Ok false, m').
Proof.
  intros Hmf Hdup. split; [by eapply loadManifest_duplicate|].
  intros r m' Hstart.
  apply startAllJobs_spec in Hstart as (_ & _ & Hkeep & Hr).
  assert (is_Some (pending_jobs m' !! label mf) ∨
          is_Some (jobs m' !! label mf)) as Hdup'.
  { destruct r as [[]|e].
    - destruct Hr as [_ Hmoved]. right. destruct Hdup; auto.
    - rewrite Hr. destruct Hdup; auto. }
  split; [|by eapply loadManifest_duplicate].
  intros ->. destruct Hr as [Hempty Hmoved]. split; [done|].
  destruct Hdup; auto.
Qed.

(** ** Forced unloading *)

Lemma forceUnloadAllJobs_loop_spec l m :
  ∃ js, for_each l forceUnloadAllJobs_body m =
    (Ok tt, mkManager (domain m) (state_file m) (fsm_state m) js
              (pending_jobs m) (signal_handlers m)
              (trace m ++ (CallForceUnloadJob <$> l.*1))).
Proof.
  revert m. induction l as [|[key job] l IH]; intros m.
  - exists (jobs m). simpl. rewrite app_nil_r. by destruct m.
  - rewrite for_each_cons. unfold forceUnloadAllJobs_body at 1. run_monad.
    edestruct IH as [js ->]. simpl. exists js.
    by rewrite <- app_assoc.
Qed.

Lemma forceUnloadAllJobs_spec m :
  forceUnloadAllJobs m =
    (Ok tt, mkManager (domain m) (state_file m) (fsm_state m) ∅
              (pending_jobs m) (signal_handlers m)
              (trace m ++ (CallForceUnloadJob <$> (map_to_list (jobs m)).*1))).
Proof.
  unfold forceUnloadAllJobs. run_monad.
  destruct (forceUnloadAllJobs_loop_spec (map_to_list (jobs m)) m) as [js ->].
  reflexivity.
Qed.

(** C6.  A shutdown signal handled in [GracefulShutdown] calls
    [forceUnloadJob] on every job of [jobs] (once each, and on nothing
    else), empties [jobs] and leaves the manager in [Finished]. *)
Theorem second_shutdown_signal_forces_finish signame (m : Manager) :
  fsm_state m = GracefulShutdown →
  ∃ m', handleShutdownSignal signame m = (Ok tt, m') ∧
        jobs m' = ∅ ∧ fsm_state m' = Finished ∧
        trace m' =
          trace m ++ (CallForceUnloadJob <$> (map_to_list (jobs m)).*1) ∧
        (∀ key, is_Some (jobs m !! key) ↔
                CallForceUnloadJob key ∈
                  CallForceUnloadJob <$> (map_to_list (jobs m)).*1) ∧
        NoDup (CallForceUnloadJob <$> (map_to_list (jobs m)).*1).
Proof.
  intros Hst. unfold handleShutdownSignal. run_monad. rewrite Hst.
  rewrite forceUnloadAllJobs_spec.
  rewrite fsm_execute_AllJobsExited by done.
  eexists. split; [reflexivity|]. simpl. repeat split.
  - intros [job Hjob]. apply list_elem_of_fmap_2.
    apply list_elem_of_fmap. exists (key, job). split; [done|].
    by apply elem_of_map_to_list.
  - intros (k & [= <-] & ([k' job] & -> & Hin)%list_elem_of_fmap)%list_elem_of_fmap.
    apply elem_of_map_to_list in Hin. eauto.
  - apply NoDup_fmap_2; [by intros ?? [=]|]. apply NoDup_fst_map_to_list.
Qed.

End Registry.

Section Batch.
Context `{Collaborators}.

(** ** Loading a directory *)

Lemma loadAllManifests_try_spec file od fl m :
  loadAllManifests_try file od fl m =
    (Ok (reported_failure (fst (loadManifest_path file od fl m))),
     snd (loadManifest_path file od fl m)).
Proof.
  unfold loadAllManifests_try. run_monad.
  by destruct (loadManifest_path file od fl m) as [[[]|e] m1].
Qed.

Lemma loadAllManifests_dir_spec files od fl error m :
  loadAllManifests_dir files od fl error m =
    (Ok (error || existsb reported_failure (fst (sub_loads files od fl m))),
     snd (sub_loads files od fl m)).
Proof.
  revert error m. induction files as [|file rest IH]; intros error m; simpl.
  - by rewrite orb_false_r.
  - unfold bind. rewrite loadAllManifests_try_spec.
    destruct (loadManifest_path file od fl m) as [r m1]. simpl.
    rewrite IH. destruct (sub_loads rest od fl m1) as [rs m2]. simpl.
    by destruct (reported_failure r), error.
Qed.


(** A failure in the middle of a batch does not stop it: the entries after
    it are attempted in the manager the failed attempt left. *)
Lemma sub_loads_app files1 files2 od fl m :
  sub_loads (files1 ++ files2) od fl m =
    let '(rs1, m1) := sub_loads files1 od fl m in
    let '(rs2, m2) := sub_loads files2 od fl m1 in
    (rs1 ++ rs2, m2).
Proof.
  revert m. induction files1 as [|file rest IH]; intros m; simpl.
  - by destruct (sub_loads files2 od fl m).
  - destruct (loadManifest_path file od fl m) as [r m1]. rewrite IH.
    destruct (sub_loads rest od fl m1) as [rs1 m2].
    by destruct (sub_loads files2 od fl m2).
Qed.


End Batch.

Section Ticks.
Context `{Collaborators}.

(** ** The shutdown tick *)

Lemma dispatch_quiet ev m :
  is_shutdown_signal ev = false →
  ∃ js, dispatch ev m = (Ok tt, set_jobs js m).
Proof.
  intros Hquiet. exists (jobs (snd (dispatch ev m))).
  destruct ev as [[]|name arg]; try done; unfold dispatch; run_monad.
  - by destruct (signal_handlers m), m.
  - unfold delete_job. run_monad. case_bool_decide; by destruct m.
Qed.

Lemma for_each_dispatch_quiet fired m :
  forallb (λ ev, negb (is_shutdown_signal ev)) fired = true →
  ∃ js, for_each fired dispatch m = (Ok tt, set_jobs js m).
Proof.
  revert m. induction fired as [|ev fired IH]; intros m; simpl.
  - intros _. exists (jobs m). by destruct m.
  - intros [Hev Hrest]%andb_true_iff. apply negb_true_iff in Hev.
    unfold bind. destruct (dispatch_quiet ev m Hev) as [js1 ->].
    destruct (IH (set_jobs js1 m) Hrest) as [js2 ->]. by exists js2.
Qed.

(** C2 (as the code has it).  A tick in [GracefulShutdown]:
    with [jobs] empty it fires [AllJobsExited], does not wait, leaves the
    manager in [Finished] and returns false; otherwise it makes exactly the
    wait with the 500 ms timeout, whatever timeout the caller passed, and
    returns whether the manager is not [Finished] after it, which is true
    when no shutdown signal is delivered during the wait (the manager is
    then still in [GracefulShutdown]). *)
Theorem handleEvent_GracefulShutdown timeout fired (m : Manager) :
  fsm_state m = GracefulShutdown →
  (jobs m = ∅ →
     handleEvent timeout fired m = (Ok false, set_fsm_state Finished m)) ∧
  (jobs m ≠ ∅ →
     (∀ r m', waitForEvent (Some 500) fired m = (r, m') →
        handleEvent timeout fired m =
          (match r with
           | Ok _ => Ok (negb (bool_decide (fsm_state m' = Finished)))
           | Throw e => Throw e
           end, m')) ∧
     (forallb (λ ev, negb (is_shutdown_signal ev)) fired = true →
        ∃ m', handleEvent timeout fired m = (Ok true, m') ∧
              fsm_state m' = GracefulShutdown ∧
              trace m' = trace m ++ [CallWaitForEvent (Some 500)])).
Proof.
  intros Hst. split; [|split].
  - intros Hempty. unfold handleEvent. run_monad. rewrite Hst, Hempty.
    rewrite bool_decide_true by done.
    rewrite fsm_execute_AllJobsExited by done. done.
  - intros r m' Hwait. unfold handleEvent. run_monad. rewrite Hst.
    rewrite bool_decide_false by done. rewrite Hwait. by destruct r.
  - intros Hquiet. unfold handleEvent, waitForEvent. run_monad. rewrite Hst.
    rewrite bool_decide_false by done.
    destruct (for_each_dispatch_quiet fired
                (add_trace (CallWaitForEvent (Some 500)) m) Hquiet) as [js ->].
    simpl. rewrite Hst. eexists. split; [reflexivity|]. done.
Qed.

End Ticks.

Ltac lookup_written :=
  unfold Json.enabled_object;
  repeat (rewrite ?lookup_insert_eq, ?lookup_singleton_eq; simpl);
  try done.

Section Overrides.
Context `{Collaborators}.

(** ** The override record of the state document *)

(** [overrideJobEnabled] computes a document and writes it. *)
Lemma overrideJobEnabled_unfold label enabled (m : Manager) :
  overrideJobEnabled label enabled m =
    match override_doc (state_file m) label enabled with
    | Ok doc' =>
        match StateFile_setValue doc' with
        | Ok _ => (Ok tt, set_state_file doc' m)
        | Throw e => (Throw e, m)
        end
    | Throw e => (Throw e, m)
    end.
Proof.
  unfold overrideJobEnabled, override_doc, setValue. run_monad.
  destruct (Json.at_ (state_file m) "Overrides") as [ov|]; simpl; [|done].
  destruct (Json.contains ov label); simpl;
    (destruct (Json.update _ _ _) as [doc'|]; simpl; [|done]);
    by destruct (StateFile_setValue doc') as [[]|].
Qed.

Lemma override_doc_enabled doc label enabled doc' :
  override_doc doc label enabled = Ok doc' →
  Overrides_Enabled doc' label = Some enabled.
Proof.
  unfold override_doc.
  destruct doc as [| | | | |d] eqn:Hdoc; simpl; try done.
  destruct (d !! "Overrides") as [ov|] eqn:Hov; simpl; [|done].
  destruct ov as [| | | | |o]; simpl; try done.
  - intros [= <-]. simpl. lookup_written.
  - destruct (o !! label) as [v|] eqn:Hv.
    + rewrite bool_decide_true by eauto. simpl.
      destruct v as [| | | | |e]; simpl; try done;
        intros [= <-]; simpl; lookup_written.
    + rewrite bool_decide_false by (intros [? ?]; done). simpl.
      intros [= <-]. simpl. lookup_written.
Qed.


(** The write leaves everything but the state document alone, and after a
    write that returned the document enables or disables the label. *)
Lemma overrideJobEnabled_ok label enabled m m' :
  overrideJobEnabled label enabled m = (Ok tt, m') →
  m' = set_state_file (state_file m') m ∧
  Overrides_Enabled (state_file m') label = Some enabled.
Proof.
  rewrite overrideJobEnabled_unfold.
  destruct (override_doc (state_file m) label enabled) as [doc'|] eqn:Hdoc;
    [|done].
  destruct (StateFile_setValue doc') as [[]|]; [|done].
  intros [= <-]. split; [done|]. simpl. by eapply override_doc_enabled.
Qed.

(** The document of a write that returned is one that can be written. *)
Lemma overrideJobEnabled_persisted label enabled m m' :
  overrideJobEnabled label enabled m = (Ok tt, m') →
  StateFile_setValue (state_file m') = Ok tt.
Proof.
  rewrite overrideJobEnabled_unfold.
  destruct (override_doc (state_file m) label enabled) as [doc'|]; [|done].
  destruct (StateFile_setValue doc') as [[]|] eqn:Hset; [|done].
  by intros [= <-].
Qed.

(** The write is atomic: when it throws, nothing has changed. *)
Lemma overrideJobEnabled_throw label enabled m e m' :
  overrideJobEnabled label enabled m = (Throw e, m') → m' = m.
Proof.
  rewrite overrideJobEnabled_unfold.
  destruct (override_doc (state_file m) label enabled) as [doc'|];
    [|by intros [= _ <-]].
  destruct (StateFile_setValue doc') as [[]|]; [done|by intros [= _ <-]].
Qed.


Lemma refused_by_state_file_enabled state label forceLoad enabled :
  Overrides_Enabled state label = Some enabled →
  refused_by_state_file state label forceLoad =
    Ok (negb enabled && negb forceLoad).
Proof.
  unfold Overrides_Enabled, refused_by_state_file.
  destruct state as [| | | | |d]; try done. simpl.
  destruct (d !! "Overrides") as [[| | | | |o]|] eqn:Hov; try done. simpl.
  destruct (o !! label) as [[| | | | |e]|] eqn:Hv; try done.
  destruct (e !! "Enabled") as [[|b| | | |]|] eqn:Hen; try done.
  intros [= ->]. rewrite bool_decide_true by eauto. simpl.
  by rewrite Hen.
Qed.

(** [loadManifest] without [overrideDisabled], past the checks of the
    manager state and of duplicates. *)
Lemma loadManifest_plain jsondata mf path fl (m : Manager) :
  manifest_from_json jsondata = Ok mf →
  fsm_state m ≠ GracefulShutdown →
  jobs m !! label mf = None →
  pending_jobs m !! label mf = None →
  loadManifest jsondata path false fl m =
    if disabled mf && negb fl then (Ok false, m) else
    match refused_by_state_file (state_file m) (label mf) fl with
    | Ok true => (Ok false, m)
    | Ok false =>
        (Ok true,
         set_pending_jobs
           (<[ label mf := Job_new path mf ]> (pending_jobs m)) m)
    | Throw e => (Throw e, m)
    end.
Proof.
  intros Hmf Hst Ha Hp. unfold loadManifest, jobExists. run_monad.
  rewrite bool_decide_false by done. rewrite Hmf. run_monad.
  rewrite Ha, Hp.
  rewrite !bool_decide_false by (intros [? ?]; done). simpl.
  destruct (disabled mf && negb fl); [done|].
  unfold refused_by_state_file.
  destruct (Json.at_ (state_file m) "Overrides") as [ov|]; simpl; [|done].
  destruct (Json.contains ov (label mf)); simpl.
  - destruct (result_bind (Json.subscript (state_file m) "Overrides") _)
      as [job_state|]; simpl; [|done].
    destruct (result_bind (Json.at_ job_state "Enabled") Json.get_bool)
      as [enabled|]; simpl; [|done].
    destruct (negb enabled && negb fl); [done|].
    unfold map_emplace. by rewrite Hp.
  - unfold map_emplace. by rewrite Hp.
Qed.

(** With [overrideDisabled], the load is the write of the override followed
    by the load without it. *)
Lemma loadManifest_override jsondata mf path fl (m : Manager) :
  manifest_from_json jsondata = Ok mf →
  fsm_state m ≠ GracefulShutdown →
  jobs m !! label mf = None →
  pending_jobs m !! label mf = None →
  loadManifest jsondata path true fl m =
    match overrideJobEnabled (label mf) true m with
    | (Ok _, m1) => loadManifest jsondata path false fl m1
    | (Throw e, m1) => (Throw e, m1)
    end.
Proof.
  intros Hmf Hst Ha Hp.
  destruct (overrideJobEnabled (label mf) true m) as [[[]|e] m1] eqn:Hw.
  - pose proof (overrideJobEnabled_ok _ _ _ _ Hw) as [Hm1 _].
    unfold loadManifest at 1. unfold loadManifest, jobExists. run_monad.
    rewrite Hm1. simpl.
    rewrite bool_decide_false by done. rewrite Hmf. run_monad.
    rewrite Ha, Hp.
    rewrite !bool_decide_false by (intros [? ?]; done). simpl.
    rewrite <- Hm1. rewrite Hw. simpl. done.
  - unfold loadManifest, jobExists. run_monad.
    rewrite bool_decide_false by done. rewrite Hmf. run_monad.
    rewrite Ha, Hp.
    rewrite !bool_decide_false by (intros [? ?]; done). simpl.
    by rewrite Hw.
Qed.

End Overrides.

Section Admission.
Context `{Collaborators}.

(** ** Admission and the override record *)


(** What the code does when the state document holds [Enabled = true] for
    the label (the behaviour that C1 is measured against).  Outside
    [GracefulShutdown], for a label that is neither pending nor active,
    and with [Overrides] mapping the label to [Enabled = true] when the
    checks are made (already there, or written by [overrideDisabled]):
    [loadManifest] returns true and adds the job to [pending_jobs] exactly
    when the manifest is not disabled or [forceLoad] is set. *)
Lemma loadManifest_with_enabled_override jsondata mf path (od fl : bool)
    (m : Manager) :
  manifest_from_json jsondata = Ok mf →
  fsm_state m ≠ GracefulShutdown →
  jobs m !! label mf = None →
  pending_jobs m !! label mf = None →
  (if od then fst (overrideJobEnabled (label mf) true m) = Ok tt
   else Overrides_Enabled (state_file m) (label mf) = Some true) →
  ∃ m', loadManifest jsondata path od fl m =
          (Ok (negb (disabled mf) || fl), m') ∧
        Overrides_Enabled (state_file m') (label mf) = Some true ∧
        jobs m' = jobs m ∧
        pending_jobs m' =
          if negb (disabled mf) || fl
          then <[ label mf := Job_new path mf ]> (pending_jobs m)
          else pending_jobs m.
Proof.
  intros Hmf Hst Ha Hp Hov.
  assert (∀ m0 : Manager,
            fsm_state m0 = fsm_state m → jobs m0 = jobs m →
            pending_jobs m0 = pending_jobs m →
            Overrides_Enabled (state_file m0) (label mf) = Some true →
            ∃ m', loadManifest jsondata path false fl m0 =
                    (Ok (negb (disabled mf) || fl), m') ∧
                  Overrides_Enabled (state_file m') (label mf) = Some true ∧
                  jobs m' = jobs m ∧
                  pending_jobs m' =
                    if negb (disabled mf) || fl
                    then <[ label mf := Job_new path mf ]> (pending_jobs m)
                    else pending_jobs m) as Hplain.
  { intros m0 Hst0 Ha0 Hp0 Hen.
    rewrite (loadManifest_plain _ mf) by congruence.
    rewrite (refused_by_state_file_enabled _ _ _ true) by done.
    destruct (disabled mf), fl; simpl; eexists;
      (split; [reflexivity|]); simpl; by rewrite ?Hp0. }
  destruct od.
  - rewrite (loadManifest_override _ mf) by done.
    destruct (overrideJobEnabled (label mf) true m) as [[[]|e] m0] eqn:Hw;
      [|done].
    apply overrideJobEnabled_ok in Hw as [Hm0 Hen].
    apply Hplain; [by rewrite Hm0..|done].
  - by apply Hplain.
Qed.

(** C10 (as the code has it).  Outside [GracefulShutdown] and for a label
    that is neither pending nor active, a disabled manifest loaded with
    [overrideDisabled = true] and [forceLoad = false] is never loaded:
    whenever [loadManifest] returns, it returns false, the state document
    maps the label to [Enabled = true], and nothing but the state document
    has changed (the write made before the checks is not undone).  It does
    return whenever the write of the override returns; otherwise it throws
    what the write threw and the manager is as before. *)
Theorem rejected_load_keeps_override jsondata mf path (m : Manager) :
  manifest_from_json jsondata = Ok mf →
  disabled mf = true →
  fsm_state m ≠ GracefulShutdown →
  jobs m !! label mf = None →
  pending_jobs m !! label mf = None →
  (∀ r m', loadManifest jsondata path true false m = (r, m') →
     match r with
     | Ok loaded =>
         loaded = false ∧
         Overrides_Enabled (state_file m') (label mf) = Some true ∧
         m' = set_state_file (state_file m') m
     | Throw _ => m' = m
     end) ∧
  (fst (overrideJobEnabled (label mf) true m) = Ok tt →
   fst (loadManifest jsondata path true false m) = Ok false).
Proof.
  intros Hmf Hdis Hst Ha Hp.
  rewrite (loadManifest_override _ mf) by done.
  destruct (overrideJobEnabled (label mf) true m) as [[[]|e] m0] eqn:Hw.
  - pose proof (overrideJobEnabled_ok _ _ _ _ Hw) as [Hm0 Hen].
    rewrite (loadManifest_plain _ mf); [|done|by rewrite Hm0..].
    rewrite Hdis. simpl. split; [|done].
    by intros r m' [= <- <-].
  - apply overrideJobEnabled_throw in Hw as ->. split; [|done].
    by intros r m' [= <- <-].
Qed.

(** On a document that follows the schema of the state file the override
    is computed without a JSON error, so the call returns exactly when the
    write does. *)
Lemma overrideJobEnabled_on_schema label enabled (m : Manager) d o :
  state_file m = JObj d →
  d !! "Overrides" = Some (JObj o) →
  (∀ v, o !! label = Some v → ∃ e, v = JObj e) →
  ∃ doc', override_doc (state_file m) label enabled = Ok doc' ∧
          fst (overrideJobEnabled label enabled m) = StateFile_setValue doc'.
Proof.
  intros Hdoc Hov Hobj. rewrite overrideJobEnabled_unfold.
  assert (∃ doc', override_doc (state_file m) label enabled = Ok doc')
    as [doc' Hdoc'].
  { unfold override_doc. rewrite Hdoc. simpl. rewrite Hov. simpl.
    destruct (o !! label) as [v|] eqn:Hv.
    - rewrite bool_decide_true by eauto. simpl.
      destruct (Hobj v eq_refl) as [e ->]. simpl. eauto.
    - rewrite bool_decide_false by (intros [? ?]; done). simpl. eauto. }
  exists doc'. split; [done|]. rewrite Hdoc'.
  by destruct (StateFile_setValue doc') as [[]|].
Qed.

End Admission.

Section Reload.
Context `{Collaborators}.

(** ** Loading a label again *)

Lemma unloadJob_not_loaded label od force (m : Manager) :
  jobs m !! label = None → unloadJob label od force m = (Ok false, m).
Proof.
  intros Hl. unfold unloadJob, jobExists. run_monad.
  by rewrite Hl, bool_decide_false by (intros [? ?]; done).
Qed.




End Reload.

(** * Concrete runs

    The theorems above applied to the managers of [Sample], and the runs
    on which a claim of the specification does not hold as it is written. *)

Lemma Finished_is_terminal_witness :
  fsm_state Sample.m_finished = Finished ∧
  (∀ trigger,
     @fsm_execute Sample.env trigger Sample.m_finished
       = (Ok tt, Sample.m_finished)) ∧
  (∀ timeout fired,
     @handleEvent Sample.env timeout fired Sample.m_finished
       = (Ok false, Sample.m_finished)).
Proof.
  split; [by vm_compute|].
  apply (@Finished_is_terminal Sample.env Sample.m_finished).
  by vm_compute.
Defined.

Lemma invalid_state_operations_throw_witness :
  (fsm_state Sample.m_unconfigured ≠ Running ∧
   fsm_state Sample.m_unconfigured = Unconfigured ∧
   @RELAUNCHD_UNIT_TESTS Sample.env = false) ∧
  @runMainLoop Sample.env [[]; []] Sample.m_unconfigured =
    (Some (Throw (logic_error "must call startRunning() first")),
     Sample.m_unconfigured) ∧
  @runOnce Sample.env None [] Sample.m_unconfigured =
    (Throw (logic_error "must call startRunning() first"),
     Sample.m_unconfigured) ∧
  @handleEvent Sample.env None [] Sample.m_unconfigured =
    (Throw (logic_error "unsupported state"), Sample.m_unconfigured) ∧
  @clearStateFile Sample.env Sample.m_unconfigured =
    (Throw (logic_error "This should not be used outside of testing"),
     Sample.m_unconfigured).
Proof.
  assert (fsm_state Sample.m_unconfigured ≠ Running) as Hne
    by (vm_compute; discriminate).
  assert (fsm_state Sample.m_unconfigured = Unconfigured) as Hun
    by reflexivity.
  assert (@RELAUNCHD_UNIT_TESTS Sample.env = false) as Hflag
    by reflexivity.
  destruct (@invalid_state_operations_throw Sample.env Sample.m_unconfigured)
    as (Hloop & Hev & Hclear).
  destruct (Hloop Hne) as [Hmain Honce].
  split; [done|].
  split; [apply Hmain|]. split; [apply Honce|].
  split; [by apply Hev|by apply Hclear].
Defined.

Lemma duplicate_label_rejected_witness :
  (@manifest_from_json Sample.env Sample.doc_a = Ok (mkManifest "a" false) ∧
   (is_Some (pending_jobs Sample.m_pending_a !! "a") ∨
    is_Some (jobs Sample.m_pending_a !! "a"))) ∧
  @loadManifest Sample.env Sample.doc_a "/tmp/a.json" false true
     Sample.m_pending_a = (Ok false, Sample.m_pending_a) ∧
  ∀ r m', @startAllJobs Sample.env Sample.m_pending_a = (r, m') →
    (r = Ok tt → pending_jobs m' = ∅ ∧ is_Some (jobs m' !! "a")) ∧
    @loadManifest Sample.env Sample.doc_a "/tmp/a.json" false true m'
      = (Ok false, m').
Proof.
  assert (@manifest_from_json Sample.env Sample.doc_a
            = Ok (mkManifest "a" false)) as Hmf by (by vm_compute).
  assert (is_Some (pending_jobs Sample.m_pending_a !! "a") ∨
          is_Some (jobs Sample.m_pending_a !! "a")) as Hdup
    by (left; vm_compute; eauto).
  split; [done|].
  exact (@duplicate_label_rejected Sample.env Sample.doc_a
           (mkManifest "a" false) "/tmp/a.json" false true
           Sample.m_pending_a Hmf Hdup).
Defined.

Lemma second_shutdown_signal_forces_finish_witness :
  fsm_state Sample.m_shutdown = GracefulShutdown ∧
  ∃ m', @handleShutdownSignal Sample.env "SIGTERM" Sample.m_shutdown
          = (Ok tt, m') ∧
        jobs m' = ∅ ∧ fsm_state m' = Finished ∧
        CallForceUnloadJob "a" ∈ trace m' ∧
        CallForceUnloadJob "b" ∈ trace m'.
Proof.
  assert (fsm_state Sample.m_shutdown = GracefulShutdown) as Hst
    by (by vm_compute).
  split; [exact Hst|].
  destruct (@second_shutdown_signal_forces_finish Sample.env "SIGTERM"
              Sample.m_shutdown Hst)
    as (m' & Hrun & Hjobs & Hfin & Htrace & Hcalls & _).
  exists m'. split; [exact Hrun|]. split; [exact Hjobs|].
  split; [exact Hfin|]. split.
  - rewrite Htrace. apply elem_of_app. right. apply Hcalls.
    vm_compute. eauto.
  - rewrite Htrace. apply elem_of_app. right. apply Hcalls.
    vm_compute. eauto.
Defined.


Lemma handleEvent_GracefulShutdown_witness :
  (fsm_state Sample.m_drained = GracefulShutdown ∧
   jobs Sample.m_drained = ∅ ∧
   fsm_state Sample.m_shutdown = GracefulShutdown ∧
   jobs Sample.m_shutdown ≠ ∅ ∧
   forallb (λ ev, negb (is_shutdown_signal ev))
           [EvIpcMethod "delete_job" "a"; EvSignal SIGPIPE] = true) ∧
  @handleEvent Sample.env (Some 1000) [] Sample.m_drained =
    (Ok false, set_fsm_state Finished Sample.m_drained) ∧
  ∃ m', @handleEvent Sample.env (Some 1000)
          [EvIpcMethod "delete_job" "a"; EvSignal SIGPIPE] Sample.m_shutdown
          = (Ok true, m') ∧
        fsm_state m' = GracefulShutdown ∧
        trace m' = trace Sample.m_shutdown ++ [CallWaitForEvent (Some 500)].
Proof.
  assert (fsm_state Sample.m_drained = GracefulShutdown) as Hst1
    by (by vm_compute).
  assert (jobs Sample.m_drained = ∅) as Hempty by (by vm_compute).
  assert (fsm_state Sample.m_shutdown = GracefulShutdown) as Hst2
    by (by vm_compute).
  assert (jobs Sample.m_shutdown ≠ ∅) as Hjobs
    by (vm_compute; discriminate).
  assert (forallb (λ ev, negb (is_shutdown_signal ev))
            [EvIpcMethod "delete_job" "a"; EvSignal SIGPIPE] = true) as Hquiet
    by reflexivity.
  split; [exact (conj Hst1 (conj Hempty (conj Hst2 (conj Hjobs Hquiet))))|].
  split.
  - by apply (@handleEvent_GracefulShutdown Sample.env (Some 1000) []
                Sample.m_drained Hst1).
  - destruct (@handleEvent_GracefulShutdown Sample.env (Some 1000)
                [EvIpcMethod "delete_job" "a"; EvSignal SIGPIPE]
                Sample.m_shutdown Hst2) as [_ Hwait].
    by apply Hwait.
Defined.

Lemma rejected_load_keeps_override_witness :
  (@manifest_from_json Sample.env Sample.doc_a_disabled
     = Ok (mkManifest "a" true) ∧
   disabled (mkManifest "a" true) = true ∧
   fsm_state Sample.m_idle ≠ GracefulShutdown ∧
   jobs Sample.m_idle !! "a" = None ∧
   pending_jobs Sample.m_idle !! "a" = None) ∧
  ∃ m', @loadManifest Sample.env Sample.doc_a_disabled
          "/etc/relaunchd/a.json" true false Sample.m_idle = (Ok false, m') ∧
        Overrides_Enabled (state_file m') "a" = Some true ∧
        m' = set_state_file (state_file m') Sample.m_idle.
Proof.
  assert (@manifest_from_json Sample.env Sample.doc_a_disabled
            = Ok (mkManifest "a" true)) as Hmf by (by vm_compute).
  assert (disabled (mkManifest "a" true) = true) as Hdis by reflexivity.
  assert (fsm_state Sample.m_idle ≠ GracefulShutdown) as Hst
    by (vm_compute; discriminate).
  assert (jobs Sample.m_idle !! "a" = None) as Ha by (by vm_compute).
  assert (pending_jobs Sample.m_idle !! "a" = None) as Hp by (by vm_compute).
  split; [done|].
  destruct (@rejected_load_keeps_override Sample.env Sample.doc_a_disabled
              (mkManifest "a" true) "/etc/relaunchd/a.json" Sample.m_idle
              Hmf Hdis Hst Ha Hp) as [Hret Hruns].
  assert (fst (@overrideJobEnabled Sample.env "a" true Sample.m_idle) = Ok tt) as Hw
    by (by vm_compute).
  specialize (Hruns Hw).
  destruct (@loadManifest Sample.env Sample.doc_a_disabled
              "/etc/relaunchd/a.json" true false Sample.m_idle)
    as [r m'] eqn:Hload.
  simpl in Hruns. subst r.
  destruct (Hret _ _ eq_refl) as (_ & Hen & Hm').
  by exists m'.
Defined.


(** ** Runs on which a claim fails as written *)

(** C1.  The code at the failing input: the manifest of [a] is disabled
    and [forceLoad] is false.  With [overrideDisabled], [loadManifest]
    writes [Enabled = true] for [a] into the state document, which had no
    record for it, and then refuses the load at the manifest's [Disabled]
    key: it returns false and nothing is pending.  The same happens when
    the record is already there.  The check of the state file supersedes
    the manifest in the other direction only: with [Enabled = false]
    recorded, the enabled manifest of [a] is refused. *)
Theorem enabled_override_does_not_load_disabled_manifest :
  @manifest_from_json Sample.env Sample.doc_a_disabled
    = Ok (mkManifest "a" true) ∧
  (let '(r, m') :=
     @loadManifest Sample.env Sample.doc_a_disabled "/etc/relaunchd/a.json"
        true false Sample.m_unconfigured in
   Overrides_Enabled (state_file Sample.m_unconfigured) "a" = None ∧
   r = Ok false ∧ Overrides_Enabled (state_file m') "a" = Some true ∧
   pending_jobs m' = ∅) ∧
  Overrides_Enabled (state_file Sample.m_seeded) "a" = Some true ∧
  @loadManifest Sample.env Sample.doc_a_disabled "/etc/relaunchd/a.json"
     false false Sample.m_seeded = (Ok false, Sample.m_seeded) ∧
  pending_jobs Sample.m_seeded = ∅ ∧
  @manifest_from_json Sample.env Sample.doc_a = Ok (mkManifest "a" false) ∧
  fst (@loadManifest Sample.env Sample.doc_a "/etc/relaunchd/a.json"
         false false (Manager_new Sample.dom (Some Sample.doc_disabled_a)))
    = Ok false.
Proof. vm_compute. repeat split. Qed.

(** C5.  The manager is in [GracefulShutdown].  [loadManifest] on a path
    that does not parse throws, it does not return false.  And when the
    manager has gone on to [Finished], [loadManifest] admits a new job
    again: it returns true and the job is pending. *)
Lemma admission_resumes_when_Finished :
  fsm_state Sample.m_shutdown = GracefulShutdown ∧
  @loadManifest_path Sample.env "/etc/relaunchd/bad.json" false false
     Sample.m_shutdown
    = (Throw (foreign_exception "parse error"), Sample.m_shutdown) ∧
  snd (@stopRunning Sample.env Sample.m_shutdown) = Sample.m_finished ∧
  fsm_state Sample.m_finished = Finished ∧
  pending_jobs Sample.m_finished !! "c" = None ∧
  (let '(r, m') :=
     @loadManifest Sample.env SampleControl.doc_c "/tmp/c.json" false false
        Sample.m_finished in
   r = Ok true ∧ is_Some (pending_jobs m' !! "c")).
Proof. vm_compute. repeat split. eauto. Qed.

(** C2.  In [GracefulShutdown] with no job left, the tick returns false,
    not true. *)
Lemma handleEvent_drained_returns_false :
  fsm_state Sample.m_drained = GracefulShutdown ∧
  jobs Sample.m_drained = ∅ ∧
  fst (@handleEvent Sample.env (Some 1000) [] Sample.m_drained) = Ok false ∧
  fst (@handleEvent Sample.env (Some 1000) [] Sample.m_drained) ≠ Ok true ∧
  fsm_state (snd (@handleEvent Sample.env (Some 1000) [] Sample.m_drained))
    = Finished.
Proof. vm_compute. repeat split; congruence. Qed.


(** C10.  Label [a] is already active: the load with [overrideDisabled]
    returns false before the override is written, and the state document
    has no entry for [a]. *)
Lemma rejected_duplicate_writes_no_override :
  @manifest_from_json Sample.env Sample.doc_a_disabled
    = Ok (mkManifest "a" true) ∧
  is_Some (jobs Sample.m_running !! "a") ∧
  @loadManifest Sample.env Sample.doc_a_disabled "/etc/relaunchd/a.json"
     true false Sample.m_running = (Ok false, Sample.m_running) ∧
  Overrides_Enabled (state_file Sample.m_running) "a" = None ∧
  Overrides_Enabled (state_file Sample.m_running) "a" ≠ Some true.
Proof. vm_compute. repeat split; try congruence; eauto. Qed.

(** ** Scenarios *)

(** A disabled manifest is refused without [forceLoad] and loaded with it;
    after promotion the job has no process and exit status 0. *)
Example scenario_disabled_manifest :
  fst (@loadManifest Sample.env Sample.doc_a_disabled "/etc/relaunchd/a.json"
         false false Sample.m_idle) = Ok false ∧
  (let '(r, m1) :=
     @loadManifest Sample.env Sample.doc_a_disabled "/etc/relaunchd/a.json"
        false true Sample.m_idle in
   let '(_, m2) := @startAllJobs Sample.env m1 in
   r = Ok true ∧
   (λ j, (label (manifest j), pid j, last_exit_status j)) <$> jobs m2 !! "a"
     = Some ("a", 0, 0)).
Proof. by vm_compute. Qed.

(** A state file that disables the label wins over an enabled manifest,
    unless [forceLoad] is set. *)
Example scenario_state_file_disables :
  let m := @Manager_new Sample.dom (Some Sample.doc_disabled_a) in
  fst (@loadManifest Sample.env Sample.doc_a "/etc/relaunchd/a.json"
         false false m) = Ok false ∧
  fst (@loadManifest Sample.env Sample.doc_a "/etc/relaunchd/a.json"
         false true m) = Ok true ∧
  fst (@loadManifest Sample.env Sample.doc_a "/etc/relaunchd/a.json"
         true false m) = Ok true.
Proof. by vm_compute. Qed.

(** Unloading with [overrideDisabled] records [Enabled = false], which
    refuses a later load of the enabled manifest. *)
Example scenario_unload_with_override :
  let '(_, m1) := @unloadJob Sample.env "a" true false Sample.m_one_job in
  let '(_, m2) := delete_job "a" m1 in
  Overrides_Enabled (state_file m2) "a" = Some false ∧
  fst (@loadManifest Sample.env Sample.doc_a "/etc/relaunchd/a.json"
         false false m2) = Ok false.
Proof. by vm_compute. Qed.

(** Graceful shutdown drains: the tick that delivers [delete_job] leaves
    the manager shutting down, the next tick finishes it. *)
Example scenario_graceful_shutdown_drains :
  fsm_state Sample.m_one_job_shutdown = GracefulShutdown ∧
  (let '(r1, m1) :=
     @handleEvent Sample.env None [EvIpcMethod "delete_job" "a"]
        Sample.m_one_job_shutdown in
   let '(r2, m2) := @handleEvent Sample.env None [] m1 in
   r1 = Ok true ∧ fsm_state m1 = GracefulShutdown ∧ jobs m1 = ∅ ∧
   r2 = Ok false ∧ fsm_state m2 = Finished).
Proof. by vm_compute. Qed.

(** A shutdown signal delivered during the wait of a shutdown tick forces
    the end: the tick returns false. *)
Example scenario_second_signal_during_wait :
  let '(r, m') :=
    @handleEvent Sample.env None [EvSignal SIGINT] Sample.m_one_job_shutdown in
  r = Ok false ∧ fsm_state m' = Finished ∧ jobs m' = ∅ ∧
  trace m' = trace Sample.m_one_job_shutdown ++
             [CallWaitForEvent (Some 500); CallForceUnloadJob "a"].
Proof. by vm_compute. Qed.

(** The main loop started in [Running] ends when two shutdown signals have
    arrived, and is still running before that. *)
Example scenario_main_loop :
  fst (@runMainLoop Sample.env [[]; [EvSignal SIGTERM]; []]
         Sample.m_one_job) = None ∧
  fst (@runMainLoop Sample.env
         [[]; [EvSignal SIGTERM]; [EvIpcMethod "delete_job" "a"]; []]
         Sample.m_one_job) = Some (Ok tt) ∧
  fst (@runMainLoop Sample.env [[EvSignal SIGTERM; EvSignal SIGINT]]
         Sample.m_one_job) = Some (Ok tt).
Proof. by vm_compute. Qed.

(** A batch goes on after an entry that cannot be parsed. *)
Example scenario_batch_continues :
  let '(r, m') :=
    @loadAllManifests Sample.env "/etc/relaunchd" false false
       Sample.m_unconfigured in
  r = Ok true ∧ is_Some (pending_jobs m' !! "a") ∧
  is_Some (pending_jobs m' !! "b") ∧
  fst (@sub_loads Sample.env Sample.dir_entries false false
         Sample.m_unconfigured)
    = [Ok true; Throw (foreign_exception "parse error"); Ok true].
Proof. vm_compute. repeat split; eauto. Qed.

(** * Further properties

    Properties of the member functions beyond the lifecycle and admission
    results above: what each operation can change, the invariants of the
    two job maps and of the state document, and the control operations. *)

(** ** Relations kept by computations *)

Section Keeps.
Context (R : relation Manager) `{!Reflexive R} `{!Transitive R}.

Lemma keeps_ret {A} (a : A) : keeps R (ret a).
Proof. intros m r m' [= <- <-]. reflexivity. Qed.

Lemma keeps_throw {A} e : keeps R (@throw A e).
Proof. intros m r m' [= <- <-]. reflexivity. Qed.

Lemma keeps_gets {A} (f : Manager → A) : keeps R (gets f).
Proof. intros m r m' [= <- <-]. reflexivity. Qed.

Lemma keeps_lift {A} (x : result A) : keeps R (lift x).
Proof. intros m r m' [= <- <-]. reflexivity. Qed.

Lemma keeps_modify f : (∀ m, R m (f m)) → keeps R (modify f).
Proof. intros Hf m r m' [= <- <-]. apply Hf. Qed.

Lemma keeps_bind {A B} (c : M A) (k : A → M B) :
  keeps R c → (∀ a, keeps R (k a)) → keeps R (bind c k).
Proof.
  intros Hc Hk m r m'. unfold bind.
  destruct (c m) as [[a|e] m1] eqn:Hcm.
  - intros Hkm. etrans; [by eapply Hc|by eapply Hk].
  - intros [= <- <-]. by eapply Hc.
Qed.

Lemma keeps_try_catch {A} (c h : M A) :
  keeps R c → keeps R h → keeps R (try_catch c h).
Proof.
  intros Hc Hh m r m'. unfold try_catch.
  destruct (c m) as [[a|e] m1] eqn:Hcm.
  - intros [= <- <-]. by eapply Hc.
  - intros Hhm. etrans; [by eapply Hc|by eapply Hh].
Qed.

Lemma keeps_for_each {A} (l : list A) (body : A → M unit) :
  (∀ x, x ∈ l → keeps R (body x)) → keeps R (for_each l body).
Proof.
  induction l as [|x l IH]; intros Hbody; simpl.
  - apply keeps_ret.
  - apply keeps_bind.
    + apply Hbody. by left.
    + intros _. apply IH. intros y Hy. apply Hbody. by right.
Qed.

End Keeps.

Ltac keeps_step :=
  first
    [ apply keeps_ret; tc_solve
    | apply keeps_throw; tc_solve
    | apply keeps_gets; tc_solve
    | apply keeps_lift; tc_solve
    | apply keeps_bind; [tc_solve| |intros ?]
    | apply keeps_try_catch; [tc_solve| |]
    | match goal with
      | |- keeps _ (if ?b then _ else _) => destruct b
      | |- keeps _ (match ?x with _ => _ end) => destruct x
      end ].

(** ** What admission can change *)

Section AdmissionFrame.
Context `{Collaborators}.

Lemma overrideJobEnabled_keeps {B} (f : Manager → B) `{!AdmissionBlind f}
    label enabled :
  keeps (same f) (overrideJobEnabled label enabled).
Proof.
  intros m [[]|e] m' Hw; unfold same.
  - apply overrideJobEnabled_ok in Hw as [-> _]. apply blind_state_file.
  - by apply overrideJobEnabled_throw in Hw as ->.
Qed.

Lemma loadManifest_keeps {B} (f : Manager → B) `{!AdmissionBlind f}
    jsondata path od fl :
  keeps (same f) (loadManifest jsondata path od fl).
Proof.
  unfold loadManifest, jobExists.
  repeat first
    [ apply overrideJobEnabled_keeps; tc_solve
    | apply keeps_modify; [intros m; apply blind_pending_jobs]
    | keeps_step ].
Qed.

Lemma loadManifest_path_keeps {B} (f : Manager → B) `{!AdmissionBlind f}
    path od fl :
  keeps (same f) (loadManifest_path path od fl).
Proof.
  unfold loadManifest_path.
  repeat first [ apply loadManifest_keeps; tc_solve | keeps_step ].
Qed.

End AdmissionFrame.

Section AdmissionEffect.
Context `{Collaborators}.

Lemma loadManifest_invalid jsondata path od fl (m : Manager) e :
  manifest_from_json jsondata = Throw e →
  loadManifest jsondata path od fl m = (Ok false, m).
Proof.
  intros Hmf. unfold loadManifest. run_monad. rewrite Hmf.
  by case_bool_decide.
Qed.

Lemma loadManifest_cases jsondata path od fl (m : Manager) r m' :
  loadManifest jsondata path od fl m = (r, m') →
  match r with
  | Ok true =>
      ∃ mf, manifest_from_json jsondata = Ok mf ∧
            jobs m !! label mf = None ∧ pending_jobs m !! label mf = None ∧
            pending_jobs m' = <[ label mf := Job_new path mf ]> (pending_jobs m)
  | _ => pending_jobs m' = pending_jobs m
  end.
Proof.
  intros Hload.
  destruct (decide (fsm_state m = GracefulShutdown)) as [Hst|Hst].
  { rewrite loadManifest_GracefulShutdown in Hload by done.
    by injection Hload as <- <-. }
  destruct (manifest_from_json jsondata) as [mf|e] eqn:Hmf.
  2:{ rewrite (loadManifest_invalid _ _ _ _ _ e) in Hload by done.
      by injection Hload as <- <-. }
  destruct (jobs m !! label mf) as [j|] eqn:Ha.
  { rewrite (loadManifest_duplicate _ mf) in Hload; [|done|].
    - by injection Hload as <- <-.
    - right. rewrite Ha. eauto. }
  destruct (pending_jobs m !! label mf) as [j|] eqn:Hp.
  { rewrite (loadManifest_duplicate _ mf) in Hload; [|done|].
    - by injection Hload as <- <-.
    - left. rewrite Hp. eauto. }
  match goal with
  | |- ?G =>
      assert (∀ m0 : Manager,
                fsm_state m0 = fsm_state m → jobs m0 = jobs m →
                pending_jobs m0 = pending_jobs m →
                loadManifest jsondata path false fl m0 = (r, m') → G)
        as Hplain
  end.
  { intros m0 Hst0 Ha0 Hp0.
    rewrite (loadManifest_plain _ mf) by congruence.
    destruct (disabled mf && negb fl); [by intros [= <- <-]|].
    destruct (refused_by_state_file _ _ _) as [[]|];
      intros [= <- <-]; try done.
    exists mf. simpl. by rewrite Hp0. }
  destruct od.
  - rewrite (loadManifest_override _ mf) in Hload by done.
    destruct (overrideJobEnabled (label mf) true m) as [[[]|e] m0] eqn:Hw.
    + apply overrideJobEnabled_ok in Hw as [Hm0 _].
      apply (Hplain m0); [by rewrite Hm0..|done].
    + apply overrideJobEnabled_throw in Hw as ->.
      by injection Hload as <- <-.
  - by apply (Hplain m).
Qed.

(** X1.  [loadManifest] changes nothing but [pending_jobs] and the state
    document: the state of the manager, the active jobs and the trace of
    calls stay as they are.  It adds a pending job exactly when it returns
    true, and then exactly one, built from this manifest and path and
    stored under the manifest's label, which was neither pending nor
    active before. *)
Theorem loadManifest_effect jsondata path od fl (m : Manager) :
  let rm := loadManifest jsondata path od fl m in
  fsm_state rm.2 = fsm_state m ∧ jobs rm.2 = jobs m ∧
  trace rm.2 = trace m ∧
  match rm.1 with
  | Ok true =>
      ∃ mf, manifest_from_json jsondata = Ok mf ∧
            jobs m !! label mf = None ∧ pending_jobs m !! label mf = None ∧
            pending_jobs rm.2 =
              <[ label mf := Job_new path mf ]> (pending_jobs m)
  | _ => pending_jobs rm.2 = pending_jobs m
  end.
Proof.
  simpl. destruct (loadManifest jsondata path od fl m) as [r m'] eqn:Hload.
  simpl. split; [|split; [|split]].
  - by eapply (loadManifest_keeps fsm_state).
  - by eapply (loadManifest_keeps jobs).
  - by eapply (loadManifest_keeps trace).
  - by eapply loadManifest_cases.
Qed.

(** X2.  A document that is not a valid manifest is rejected before
    anything is looked at: [loadManifest] returns false and the manager is
    unchanged, also with [overrideDisabled] and [forceLoad] set (no
    override is written for it). *)
Theorem loadManifest_invalid_manifest jsondata path od fl (m : Manager) e :
  manifest_from_json jsondata = Throw e →
  loadManifest jsondata path od fl m = (Ok false, m).
Proof. apply loadManifest_invalid. Qed.

Lemma loadManifest_disjoint jsondata path od fl :
  keeps (preserves disjoint_jobs) (loadManifest jsondata path od fl).
Proof.
  intros m r m' Hload Hdisj.
  pose proof (loadManifest_keeps jobs _ _ _ _ _ _ _ Hload) as Hjobs.
  apply loadManifest_cases in Hload. unfold same in Hjobs.
  unfold disjoint_jobs. rewrite Hjobs.
  destruct r as [[]|]; [|by rewrite Hload..].
  destruct Hload as (mf & _ & Ha & _ & ->).
  intros k [<-|Hk]%lookup_insert_is_Some'; [done|by apply Hdisj].
Qed.

End AdmissionEffect.

Section BatchFrame.
Context `{Collaborators}.

Lemma loadManifest_pending_grows jsondata path od fl :
  keeps pending_grows (loadManifest jsondata path od fl).
Proof.
  intros m r m' Hload. apply loadManifest_cases in Hload.
  unfold pending_grows.
  destruct r as [[]|]; [|by rewrite Hload..].
  destruct Hload as (mf & _ & _ & Hp & ->). by apply insert_subseteq.
Qed.

(** Whatever [loadManifest] keeps, the batch functions keep. *)
Lemma loadAllManifests_keeps (R : relation Manager)
    `{!Reflexive R} `{!Transitive R} :
  (∀ jsondata path od fl, keeps R (loadManifest jsondata path od fl)) →
  ∀ path od fl, keeps R (loadAllManifests path od fl).
Proof.
  intros Hload.
  assert (∀ file od fl, keeps R (loadAllManifests_try file od fl)) as Htry.
  { intros. unfold loadAllManifests_try, loadManifest_path.
    repeat first [ apply Hload | keeps_step ]. }
  assert (∀ files od fl error,
            keeps R (loadAllManifests_dir files od fl error)) as Hdir.
  { induction files as [|file rest IH]; intros; simpl.
    - by apply keeps_ret.
    - apply keeps_bind; [done|apply Htry|]. intros failed. apply IH. }
  intros path od fl. unfold loadAllManifests.
  repeat first [ apply Hdir | apply Htry | keeps_step ].
Qed.

Lemma loadDefaultManifests_keeps (R : relation Manager)
    `{!Reflexive R} `{!Transitive R} :
  (∀ jsondata path od fl, keeps R (loadManifest jsondata path od fl)) →
  keeps R loadDefaultManifests.
Proof.
  intros Hload. unfold loadDefaultManifests.
  repeat first
    [ apply keeps_for_each; [tc_solve..|intros ??]
    | apply loadAllManifests_keeps; [tc_solve..|done]
    | keeps_step ].
Qed.

(** [loadAllManifests] catches what its attempts throw: it returns unless
    the filesystem fails, and then throws the error of the filesystem. *)
Lemma loadAllManifests_result path od fl (m : Manager) :
  fsm_state m ≠ GracefulShutdown →
  ∃ error,
    (loadAllManifests path od fl m).1 =
      match filesystem_failure path with
      | Some e => Throw e
      | None => Ok error
      end.
Proof.
  intros Hst. unfold loadAllManifests, filesystem_failure, batch_failure.
  run_monad. rewrite bool_decide_false by done.
  destruct (fs_exists path) as [[]|e]; simpl; [|by eexists..].
  destruct (fs_is_directory path) as [[]|e]; simpl; [| |by eexists].
  - destruct (fs_directory_iterator path) as [files failure]. simpl.
    rewrite loadAllManifests_dir_spec. simpl.
    destruct failure; by eexists.
  - rewrite loadAllManifests_try_spec. simpl. by eexists.
Qed.

(** X3.  [loadAllManifests] catches every exception of its attempts: it
    returns whenever the filesystem calls it makes ([exists],
    [is_directory], the directory iterator) do, and in [GracefulShutdown],
    where it makes none; what it throws otherwise is the error of the
    filesystem.  Whether it returns or throws, it changes nothing but
    [pending_jobs] and the state document: no job is started, the state
    and the trace are as before.  It only adds to [pending_jobs] (no
    pending job is dropped or replaced), and it never makes a label both
    pending and active. *)
Theorem loadAllManifests_effect path od fl (m : Manager) :
  let rm := loadAllManifests path od fl m in
  (fsm_state m = GracefulShutdown ∨ filesystem_failure path = None →
   ∃ error, rm.1 = Ok error) ∧
  (∀ e, rm.1 = Throw e → filesystem_failure path = Some e) ∧
  fsm_state rm.2 = fsm_state m ∧ jobs rm.2 = jobs m ∧
  trace rm.2 = trace m ∧
  pending_jobs m ⊆ pending_jobs rm.2 ∧
  (disjoint_jobs m → disjoint_jobs rm.2).
Proof.
  simpl.
  assert ((fsm_state m = GracefulShutdown ∨ filesystem_failure path = None →
           ∃ error, (loadAllManifests path od fl m).1 = Ok error) ∧
          (∀ e, (loadAllManifests path od fl m).1 = Throw e →
                filesystem_failure path = Some e)) as [Hret Hthrow].
  { destruct (decide (fsm_state m = GracefulShutdown)) as [Hst|Hst].
    - assert (loadAllManifests path od fl m = (Ok false, m)) as ->.
      { unfold loadAllManifests. run_monad. by rewrite Hst. }
      split; [by exists false|done].
    - destruct (loadAllManifests_result path od fl m Hst) as [error Hr].
      rewrite Hr. split.
      + intros [?|Hnone]; [done|]. rewrite Hnone. by exists error.
      + intros e. by destruct (filesystem_failure path) as [e'|]; intros [= ->]. }
  destruct (loadAllManifests path od fl m) as [r m'] eqn:Hload. simpl in *.
  split; [done|]. split; [done|]. repeat split.
  - eapply (loadAllManifests_keeps (same fsm_state)); [|done].
    intros. by apply loadManifest_keeps.
  - eapply (loadAllManifests_keeps (same jobs)); [|done].
    intros. by apply loadManifest_keeps.
  - eapply (loadAllManifests_keeps (same trace)); [|done].
    intros. by apply loadManifest_keeps.
  - eapply (loadAllManifests_keeps pending_grows); [|done].
    intros. by apply loadManifest_pending_grows.
  - eapply (loadAllManifests_keeps (preserves disjoint_jobs)); [|done].
    intros. by apply loadManifest_disjoint.
Qed.

End BatchFrame.

(** ** The loops over the job maps *)

Section JobLoops.
Context `{Collaborators}.

Lemma startAllJobs_body_fresh key job (m : Manager) :
  jobs m !! key = None →
  startAllJobs_body (key, job) m =
    (Ok tt, add_trace (CallBootstrap key)
              (set_jobs (<[ key := Job_Bootstrap job ]> (jobs m)) m)).
Proof.
  intros Hkey. unfold startAllJobs_body, jobExists, getJob, map_emplace.
  run_monad. rewrite !Hkey.
  rewrite bool_decide_false by (intros [? ?]; done). simpl.
  rewrite !Hkey, lookup_insert_eq. unfold add_trace, set_jobs. simpl.
  by rewrite insert_insert_eq.
Qed.

Lemma startAllJobs_loop_exact l (m : Manager) :
  NoDup l.*1 →
  (∀ k, k ∈ l.*1 → jobs m !! k = None) →
  ∃ js, for_each l startAllJobs_body m =
          (Ok tt, mkManager (domain m) (state_file m) (fsm_state m) js
                    (pending_jobs m) (signal_handlers m)
                    (trace m ++ (CallBootstrap <$> l.*1))) ∧
        (∀ k j, (k, j) ∈ l → js !! k = Some (Job_Bootstrap j)) ∧
        (∀ k, k ∉ l.*1 → js !! k = jobs m !! k).
Proof.
  revert m. induction l as [|[k0 j0] l IH]; intros m Hnodup Hfresh.
  - exists (jobs m). simpl. rewrite app_nil_r. split; [by destruct m|].
    split; [|done]. intros k j Hin. by apply elem_of_nil in Hin.
  - rewrite fmap_cons in Hnodup. apply NoDup_cons in Hnodup as [Hk0 Hnodup].
    rewrite for_each_cons.
    rewrite startAllJobs_body_fresh by (apply Hfresh; simpl; by left).
    destruct (IH (add_trace (CallBootstrap k0)
                    (set_jobs (<[ k0 := Job_Bootstrap j0 ]> (jobs m)) m)))
      as (js & -> & Hin & Hout); [done| |].
    { intros k Hk. simpl. rewrite lookup_insert_ne by (by intros ->).
      apply Hfresh. simpl. by right. }
    exists js. simpl in *. rewrite <- app_assoc. split; [done|]. split.
    + intros k j [[= -> ->]|Hkj]%elem_of_cons; [|by apply Hin].
      by rewrite Hout, lookup_insert_eq.
    + intros k [Hne Hk]%not_elem_of_cons.
      by rewrite Hout, lookup_insert_ne.
Qed.

Lemma startAllJobs_exact (m : Manager) :
  disjoint_jobs m →
  startAllJobs m =
    (Ok tt, mkManager (domain m) (state_file m) (fsm_state m)
              ((Job_Bootstrap <$> pending_jobs m) ∪ jobs m) ∅
              (signal_handlers m)
              (trace m ++ (CallBootstrap <$> (map_to_list (pending_jobs m)).*1))).
Proof.
  intros Hdisj. unfold startAllJobs. run_monad.
  destruct (startAllJobs_loop_exact (map_to_list (pending_jobs m)) m)
    as (js & -> & Hin & Hout).
  { apply NoDup_fst_map_to_list. }
  { intros k ([k' j] & -> & Hkj%elem_of_map_to_list)%list_elem_of_fmap.
    apply Hdisj. simpl. eauto. }
  unfold set_pending_jobs. simpl. do 2 f_equal.
  apply map_eq. intros k. rewrite lookup_union, lookup_fmap.
  destruct (pending_jobs m !! k) as [j|] eqn:Hk; simpl.
  - rewrite (Hin k j) by (by apply elem_of_map_to_list).
    by destruct (jobs m !! k).
  - rewrite Hout; [by destruct (jobs m !! k)|].
    intros ([k' j] & -> & Hkj%elem_of_map_to_list)%list_elem_of_fmap.
    simpl in Hk. congruence.
Qed.

Lemma unloadAllJobs_loop_exact l success (m : Manager) :
  NoDup l.*1 →
  (∀ k j, (k, j) ∈ l → jobs m !! k = Some j) →
  ∃ js, unloadAllJobs_loop l success m =
          (Ok (success && forallb (λ entry, unloadAll_ok entry.2) l),
           mkManager (domain m) (state_file m) (fsm_state m) js
             (pending_jobs m) (signal_handlers m)
             (trace m ++ unloadAll_calls l)) ∧
        (∀ k j, (k, j) ∈ l → js !! k = Some (after_unloadAll j)) ∧
        (∀ k, k ∉ l.*1 → js !! k = jobs m !! k).
Proof.
  revert success m.
  induction l as [|[k0 j0] l IH]; intros success m Hnodup Hlist.
  - exists (jobs m). simpl. rewrite app_nil_r, andb_true_r.
    split; [by destruct m|]. split; [|done].
    intros k j Hin. by apply elem_of_nil in Hin.
  - rewrite fmap_cons in Hnodup. apply NoDup_cons in Hnodup as [Hk0 Hnodup].
    assert (jobs m !! k0 = Some j0) as Hj0 by (apply Hlist; by left).
    simpl. unfold unloadAll_ok, after_unloadAll, unloadAll_calls in *.
    simpl. fold (unload_eligible j0).
    destruct (unload_eligible j0) eqn:Hel.
    + unfold bind, try_catch, call_unloadJob, ret.
      destruct (Job_unloadJob true j0) as [r j0'] eqn:Hunload. simpl.
      set (m1 := add_trace (CallUnloadJob k0 true)
                   (set_jobs (<[ k0 := j0' ]> (jobs m)) m)).
      assert (∀ success',
                ∃ js, unloadAllJobs_loop l success' m1 =
                  (Ok (success' && forallb
                         (λ entry, if unload_eligible entry.2
                                   then match (Job_unloadJob true entry.2).1 with
                                        | Ok true => true
                                        | _ => false
                                        end
                                   else true) l),
                   mkManager (domain m) (state_file m) (fsm_state m) js
                     (pending_jobs m) (signal_handlers m)
                     (trace m ++ CallUnloadJob k0 true ::
                        flat_map (λ entry, if unload_eligible entry.2
                                           then [CallUnloadJob entry.1 true]
                                           else []) l)) ∧
                  (∀ k j, (k, j) ∈ (k0, j0) :: l →
                     js !! k = Some (if unload_eligible j
                                     then (Job_unloadJob true j).2 else j)) ∧
                  (∀ k, k ∉ k0 :: l.*1 → js !! k = jobs m !! k)) as Hrest.
      { intros success'.
        destruct (IH success' m1) as (js & -> & Hin & Hout); [done| |].
        { intros k j Hkj. simpl. rewrite lookup_insert_ne.
          - apply Hlist. by right.
          - intros <-. apply Hk0. apply list_elem_of_fmap.
            by exists (k0, j). }
        exists js. simpl. rewrite <- app_assoc. split; [done|]. split.
        - intros k j [[= -> ->]|Hkj]%elem_of_cons; [|by apply Hin].
          rewrite Hout by done. simpl. rewrite lookup_insert_eq.
          by rewrite Hel, Hunload.
        - intros k [Hne Hk]%not_elem_of_cons.
          rewrite Hout by done. simpl. by rewrite lookup_insert_ne. }
      destruct r as [[]|e]; simpl.
      * destruct (Hrest success) as (js & -> & ?). exists js. by split.
      * destruct (Hrest false) as (js & -> & ?). exists js.
        by rewrite andb_false_r.
      * destruct (Hrest false) as (js & -> & ?). exists js.
        by rewrite andb_false_r.
    + destruct (IH success m) as (js & -> & Hin & Hout); [done| |].
      { intros k j Hkj. apply Hlist. by right. }
      exists js. simpl. split; [done|]. split.
      * intros k j [[= -> ->]|Hkj]%elem_of_cons; [|by apply Hin].
        by rewrite Hout, Hel.
      * intros k [Hne Hk]%not_elem_of_cons. by apply Hout.
Qed.

Lemma unloadAllJobs_exact (m : Manager) :
  unloadAllJobs m =
    (Ok (forallb (λ entry, unloadAll_ok entry.2) (map_to_list (jobs m))),
     mkManager (domain m) (state_file m) (fsm_state m)
       (after_unloadAll <$> jobs m) (pending_jobs m) (signal_handlers m)
       (trace m ++ unloadAll_calls (map_to_list (jobs m)))).
Proof.
  unfold unloadAllJobs. run_monad.
  destruct (unloadAllJobs_loop_exact (map_to_list (jobs m)) true m)
    as (js & -> & Hin & Hout).
  { apply NoDup_fst_map_to_list. }
  { intros k j Hkj. by apply elem_of_map_to_list. }
  simpl. do 2 f_equal. apply map_eq. intros k. rewrite lookup_fmap.
  destruct (jobs m !! k) as [j|] eqn:Hk; simpl.
  - apply Hin. by apply elem_of_map_to_list.
  - rewrite Hout; [done|].
    intros ([k' j] & -> & Hkj%elem_of_map_to_list)%list_elem_of_fmap.
    simpl in Hk. congruence.
Qed.

End JobLoops.

Section Promotion.
Context `{Collaborators}.

Lemma startAllJobs_body_jobs_grow entry :
  keeps jobs_grow (startAllJobs_body entry).
Proof.
  destruct entry as [key job]. intros m r m'.
  destruct (jobs m !! key) as [old|] eqn:Hold.
  - unfold startAllJobs_body, jobExists. run_monad.
    rewrite Hold, bool_decide_true by eauto. simpl.
    destruct NDEBUG; by intros [= <- <-].
  - rewrite startAllJobs_body_fresh by done. intros [= <- <-].
    unfold jobs_grow. simpl. by apply insert_subseteq.
Qed.

Lemma startAllJobs_jobs_grow : keeps jobs_grow startAllJobs.
Proof.
  unfold startAllJobs.
  repeat first
    [ apply keeps_for_each; [tc_solve..|intros ??]
    | apply startAllJobs_body_jobs_grow
    | apply keeps_modify; intros m; unfold jobs_grow; done
    | keeps_step ].
Qed.

Lemma startAllJobs_no_pending (m : Manager) :
  pending_jobs m = ∅ → startAllJobs m = (Ok tt, m).
Proof.
  intros Hp. unfold startAllJobs. run_monad.
  rewrite Hp, map_to_list_empty. simpl. rewrite <- Hp. by destruct m.
Qed.

(** X4.  When no label is both pending and active, [startAllJobs] returns
    (its assertion is not reached): [pending_jobs] is empty afterwards,
    [jobs] holds the jobs it held before together with every pending job
    after its [Bootstrap], [Bootstrap] was called once per pending label,
    and the state of the manager and the state document are as before.
    Calling it again changes nothing. *)
Theorem startAllJobs_promotes (m : Manager) :
  disjoint_jobs m →
  ∃ m', startAllJobs m = (Ok tt, m') ∧
        pending_jobs m' = ∅ ∧
        jobs m' = (Job_Bootstrap <$> pending_jobs m) ∪ jobs m ∧
        jobs m ⊆ jobs m' ∧
        trace m' =
          trace m ++ (CallBootstrap <$> (map_to_list (pending_jobs m)).*1) ∧
        fsm_state m' = fsm_state m ∧ state_file m' = state_file m ∧
        startAllJobs m' = (Ok tt, m').
Proof.
  intros Hdisj. pose proof (startAllJobs_exact m Hdisj) as Hexact.
  eexists. split; [exact Hexact|]. simpl.
  split; [done|]. split; [done|].
  split; [apply (startAllJobs_jobs_grow _ _ _ Hexact)|].
  split; [done|]. split; [done|]. split; [done|].
  by apply startAllJobs_no_pending.
Qed.

(** X5.  [startAllJobs] never drops or replaces an active job, whatever
    the two maps hold and whether it returns or stops at its assertion.  In
    a build with [NDEBUG] it always returns and empties [pending_jobs]: a
    pending job whose label is already active is discarded. *)
Theorem startAllJobs_keeps_active_jobs (m : Manager) :
  let rm := startAllJobs m in
  jobs m ⊆ jobs rm.2 ∧
  (NDEBUG = true → rm.1 = Ok tt ∧ pending_jobs rm.2 = ∅).
Proof.
  simpl. destruct (startAllJobs m) as [r m'] eqn:Hstart. simpl. split.
  - apply (startAllJobs_jobs_grow _ _ _ Hstart).
  - intros Hndebug.
    assert (∀ l m0, ∃ m1, for_each l startAllJobs_body m0 = (Ok tt, m1))
      as Hloop.
    { induction l as [|[key job] l IH]; intros m0; [by eexists|].
      rewrite for_each_cons.
      destruct (jobs m0 !! key) as [old|] eqn:Hold.
      - unfold startAllJobs_body at 1, jobExists. run_monad.
        rewrite Hold, bool_decide_true by eauto. simpl.
        rewrite Hndebug. simpl. apply IH.
      - rewrite startAllJobs_body_fresh by done. apply IH. }
    unfold startAllJobs, bind, gets, modify in Hstart. simpl in Hstart.
    destruct (Hloop (map_to_list (pending_jobs m)) m) as [m1 Hm1].
    rewrite Hm1 in Hstart. by injection Hstart as <- <-.
Qed.

(** X6.  [unloadAllJobs] never throws.  It calls [unloadJob(true)] on
    exactly the active jobs that are not [Unloaded] and have no unload
    requested, catches what they throw, and leaves every other job, the
    set of active labels, [pending_jobs], the state and the state
    document as they are.  It returns true exactly when each of these
    calls returned true. *)
Theorem unloadAllJobs_effect (m : Manager) :
  let rm := unloadAllJobs m in
  (∃ success, rm.1 = Ok success ∧
     (success = true ↔
      ∀ k j, jobs m !! k = Some j → unloadAll_ok j = true)) ∧
  jobs rm.2 = after_unloadAll <$> jobs m ∧
  dom (jobs rm.2) = dom (jobs m) ∧
  (∃ calls, trace rm.2 = trace m ++ calls ∧
     ∀ c, c ∈ calls ↔
          ∃ k j, c = CallUnloadJob k true ∧ jobs m !! k = Some j ∧
                 unload_eligible j = true) ∧
  pending_jobs rm.2 = pending_jobs m ∧ fsm_state rm.2 = fsm_state m ∧
  state_file rm.2 = state_file m.
Proof.
  simpl. rewrite unloadAllJobs_exact. simpl. split_and!; try done.
  - eexists. split; [done|]. rewrite forallb_forall. split.
    + intros Hall k j Hkj. apply (Hall (k, j)).
      by apply list_elem_of_In, elem_of_map_to_list.
    + intros Hall [k j] Hin%list_elem_of_In%elem_of_map_to_list.
      by eapply Hall.
  - by rewrite dom_fmap_L.
  - eexists. split; [done|]. intros c. unfold unloadAll_calls.
    rewrite list_elem_of_In, in_flat_map. split.
    + intros ([k j] & Hin%list_elem_of_In%elem_of_map_to_list & Hc).
      simpl in Hc. destruct (unload_eligible j) eqn:Hel; [|done].
      destruct Hc as [<-|[]]. by exists k, j.
    + intros (k & j & -> & Hkj & Hel). exists (k, j). split.
      * by apply list_elem_of_In, elem_of_map_to_list.
      * simpl. rewrite Hel. by left.
Qed.

End Promotion.

(** ** The transition table *)

Section Table.
Context `{Collaborators}.

Lemma fsm_execute_cases trigger (m : Manager) r m' :
  fsm_execute trigger m = (r, m') →
  (r = Ok tt ∧ m' = m) ∨
  ∃ tr, In tr transitions ∧ tr_from tr = fsm_state m ∧
        tr_trigger tr = trigger ∧ tr_guard tr m = true ∧
        ((∃ m1, tr_action tr m = (Ok tt, m1) ∧ r = Ok tt ∧
                m' = set_fsm_state (tr_to tr) m1) ∨
         (∃ e, tr_action tr m = (Throw e, m') ∧ r = Throw e)).
Proof.
  unfold fsm_execute.
  destruct (find _ transitions) as [tr|] eqn:Hfind.
  - apply find_some in Hfind as [Hin Hcond].
    apply andb_true_iff in Hcond as [Hcond Hguard].
    apply andb_true_iff in Hcond as [Hfrom Htrig].
    apply bool_decide_eq_true in Hfrom, Htrig.
    intros Hrun. right. exists tr. split_and!; try done.
    unfold bind, modify in Hrun.
    destruct (tr_action tr m) as [[[]|e] m1].
    + left. exists m1. by injection Hrun as <- <-.
    + right. exists e. by injection Hrun as <- <-.
  - intros [= <- <-]. by left.
Qed.

Lemma transitions_forward tr :
  In tr transitions →
  (state_rank (tr_from tr) ≤ state_rank (tr_to tr))%nat.
Proof. simpl. intros Hin. intuition subst; simpl; lia. Qed.

Lemma startAllJobs_keeps_state : keeps (same fsm_state) startAllJobs.
Proof. intros m r m' Hstart. by apply startAllJobs_spec in Hstart as (? & _). Qed.

Lemma unloadAllJobs_keeps_state : keeps (same fsm_state) unloadAllJobs.
Proof.
  intros m r m'. rewrite unloadAllJobs_exact. by intros [= <- <-].
Qed.

Lemma forceUnloadAllJobs_keeps_state :
  keeps (same fsm_state) forceUnloadAllJobs.
Proof.
  intros m r m'. rewrite forceUnloadAllJobs_spec. by intros [= <- <-].
Qed.

Lemma transitions_keep_state tr :
  In tr transitions → keeps (same fsm_state) (tr_action tr).
Proof.
  simpl. intros Hin. intuition subst; simpl;
    unfold setupSignalHandlers, startRpcServer;
    repeat first
      [ apply startAllJobs_keeps_state
      | apply unloadAllJobs_keeps_state
      | apply loadDefaultManifests_keeps;
          [tc_solve..|intros; by apply loadManifest_keeps]
      | apply keeps_modify; by intros m
      | keeps_step ].
Qed.

Lemma fsm_execute_never_back trigger : keeps never_back (fsm_execute trigger).
Proof.
  intros m r m' Hrun. unfold never_back.
  apply fsm_execute_cases in Hrun
    as [[_ ->]|(tr & Hin & Hfrom & _ & _ & Hrun)]; [done|].
  pose proof (transitions_forward tr Hin) as Hfwd.
  pose proof (transitions_keep_state tr Hin) as Hkeep.
  destruct Hrun as [(m1 & Hact & _ & ->)|(e & Hact & _)].
  - simpl. by rewrite <- Hfrom.
  - apply Hkeep in Hact. unfold same in Hact. by rewrite Hact.
Qed.

Lemma handleShutdownSignal_never_back signame :
  keeps never_back (handleShutdownSignal signame).
Proof.
  unfold handleShutdownSignal.
  repeat first
    [ apply fsm_execute_never_back
    | match goal with
      | |- keeps never_back forceUnloadAllJobs =>
          intros m r m' Hf; apply forceUnloadAllJobs_keeps_state in Hf;
          unfold never_back, same in *; by rewrite Hf
      end
    | keeps_step ].
Qed.

Lemma dispatch_never_back ev : keeps never_back (dispatch ev).
Proof.
  unfold dispatch, delete_job.
  repeat first
    [ apply handleShutdownSignal_never_back
    | apply keeps_modify; intros ?; unfold never_back; simpl; lia
    | keeps_step ].
Qed.

Lemma handleEvent_never_back timeout fired :
  keeps never_back (handleEvent timeout fired).
Proof.
  unfold handleEvent, waitForEvent.
  repeat first
    [ apply fsm_execute_never_back
    | apply keeps_for_each; [tc_solve..|intros ??]
    | apply dispatch_never_back
    | apply keeps_modify; intros ?; unfold never_back; simpl; lia
    | keeps_step ].
Qed.

Lemma runOnce_never_back timeout fired :
  keeps never_back (runOnce timeout fired).
Proof.
  unfold runOnce.
  repeat first [ apply handleEvent_never_back | keeps_step ].
Qed.

Lemma runMainLoop_loop_never_back ticks (m : Manager) :
  never_back m (runMainLoop_loop ticks m).2.
Proof.
  revert m. induction ticks as [|fired ticks IH]; intros m; simpl; [done|].
  destruct (handleEvent None fired m) as [[[]|e] m1] eqn:Hev;
    apply handleEvent_never_back in Hev; simpl; [|done..].
  etrans; [done|apply IH].
Qed.

(** X7.  The manager never goes back to an earlier state:
    [Unconfigured], [Running], [GracefulShutdown], [Finished] follow each
    other in this order under every trigger, shutdown signal, tick and run
    of the main loop, whether the operation returns or throws. *)
Theorem state_never_goes_back (m : Manager) :
  (∀ trigger,
     (state_rank (fsm_state m) ≤
      state_rank (fsm_state (fsm_execute trigger m).2))%nat) ∧
  (∀ signame,
     (state_rank (fsm_state m) ≤
      state_rank (fsm_state (handleShutdownSignal signame m).2))%nat) ∧
  (∀ timeout fired,
     (state_rank (fsm_state m) ≤
      state_rank (fsm_state (handleEvent timeout fired m).2))%nat) ∧
  (∀ timeout fired,
     (state_rank (fsm_state m) ≤
      state_rank (fsm_state (runOnce timeout fired m).2))%nat) ∧
  (∀ ticks,
     (state_rank (fsm_state m) ≤
      state_rank (fsm_state (runMainLoop ticks m).2))%nat).
Proof.
  split_and!.
  - intros trigger. destruct (fsm_execute trigger m) as [r m'] eqn:Hrun.
    by apply fsm_execute_never_back in Hrun.
  - intros signame.
    destruct (handleShutdownSignal signame m) as [r m'] eqn:Hrun.
    by apply handleShutdownSignal_never_back in Hrun.
  - intros timeout fired.
    destruct (handleEvent timeout fired m) as [r m'] eqn:Hrun.
    by apply handleEvent_never_back in Hrun.
  - intros timeout fired.
    destruct (runOnce timeout fired m) as [r m'] eqn:Hrun.
    by apply runOnce_never_back in Hrun.
  - intros ticks. unfold runMainLoop. case_bool_decide; [done|].
    apply runMainLoop_loop_never_back.
Qed.

End Table.

(** ** Starting and stopping *)

Section StartStop.
Context `{Collaborators}.

Lemma fsm_execute_StopRequested_Running (m : Manager) :
  fsm_state m = Running →
  fsm_execute StopRequested m =
    (Ok tt,
     mkManager (domain m) (state_file m) GracefulShutdown
       (after_unloadAll <$> jobs m) (pending_jobs m) (signal_handlers m)
       ((trace m ++ [CallUnbindAndStopListening]) ++
        unloadAll_calls (map_to_list (jobs m)))).
Proof.
  intros Hst. unfold fsm_execute. rewrite Hst. simpl.
  unfold bind at 1. unfold bind at 1. unfold modify at 1.
  unfold bind at 1. rewrite unloadAllJobs_exact. reflexivity.
Qed.

Lemma fsm_execute_StopRequested_other (m : Manager) :
  fsm_state m = Unconfigured ∨ fsm_state m = GracefulShutdown →
  fsm_execute StopRequested m = (Ok tt, set_fsm_state Finished m).
Proof. intros [Hst|Hst]; unfold fsm_execute; by rewrite Hst. Qed.

(** X8.  A stop request or a shutdown signal in [Running] always succeeds:
    the manager enters [GracefulShutdown], the RPC socket is unbound
    before the first job is asked to unload, every eligible job is asked
    to unload, and no job leaves [jobs]; a job whose unload fails or throws
    does not stop the transition. *)
Theorem stopRunning_from_Running signame (m : Manager) :
  fsm_state m = Running →
  ∃ m', stopRunning m = (Ok tt, m') ∧
        handleShutdownSignal signame m = (Ok tt, m') ∧
        fsm_state m' = GracefulShutdown ∧
        trace m' = trace m ++ CallUnbindAndStopListening ::
                     unloadAll_calls (map_to_list (jobs m)) ∧
        jobs m' = after_unloadAll <$> jobs m ∧
        dom (jobs m') = dom (jobs m) ∧
        pending_jobs m' = pending_jobs m ∧ state_file m' = state_file m.
Proof.
  intros Hst. eexists. split_and!.
  - by apply fsm_execute_StopRequested_Running.
  - unfold handleShutdownSignal. run_monad. rewrite Hst.
    by apply fsm_execute_StopRequested_Running.
  - done.
  - simpl. by rewrite <- app_assoc.
  - done.
  - simpl. by rewrite dom_fmap_L.
  - done.
  - done.
Qed.

(** X9.  Outside [Running], [stopRunning] only changes the state: from
    [Unconfigured] and from [GracefulShutdown] the manager becomes
    [Finished] with its jobs, trace and state document untouched (no job is
    unloaded or force-unloaded, unlike at a second shutdown signal), and
    in [Finished] nothing happens. *)
Theorem stopRunning_outside_Running (m : Manager) :
  fsm_state m ≠ Running →
  stopRunning m = (Ok tt, set_fsm_state Finished m).
Proof.
  intros Hst. unfold stopRunning.
  destruct (fsm_state m) eqn:Hs; try done.
  - apply fsm_execute_StopRequested_other. by left.
  - apply fsm_execute_StopRequested_other. by right.
  - rewrite fsm_execute_Finished by done. rewrite <- Hs. by destruct m.
Qed.

Lemma forceUnload_calls_of_fmap (f : Job → Job) (js : gmap string Job) k :
  is_Some (js !! k) →
  CallForceUnloadJob k ∈ CallForceUnloadJob <$> (map_to_list (f <$> js)).*1.
Proof.
  intros [j Hj]. apply list_elem_of_fmap_2. apply list_elem_of_fmap.
  exists (k, f j). split; [done|]. apply elem_of_map_to_list.
  by rewrite lookup_fmap, Hj.
Qed.

(** X10.  Two shutdown signals finish the manager from any state, and
    the calls never throw.  From [Running] and from [GracefulShutdown]
    every active job has been force-unloaded and [jobs] is empty; from
    [Unconfigured] nothing but the state has changed. *)
Theorem two_shutdown_signals_finish signame1 signame2 (m : Manager) :
  ∃ m', (handleShutdownSignal signame1 >> handleShutdownSignal signame2) m
          = (Ok tt, m') ∧
        fsm_state m' = Finished ∧
        (fsm_state m = Running ∨ fsm_state m = GracefulShutdown →
         jobs m' = ∅ ∧
         ∀ k, is_Some (jobs m !! k) → CallForceUnloadJob k ∈ trace m') ∧
        (fsm_state m = Unconfigured → m' = set_fsm_state Finished m).
Proof.
  destruct (fsm_state m) eqn:Hst.
  - exists (set_fsm_state Finished m). split_and!; try done.
    + unfold bind, handleShutdownSignal at 1. run_monad. rewrite Hst.
      rewrite fsm_execute_StopRequested_other by (by left).
      unfold handleShutdownSignal. by run_monad.
    + by intros [|].
  - eexists. split_and!.
    + unfold bind, handleShutdownSignal at 1. run_monad. rewrite Hst.
      rewrite fsm_execute_StopRequested_Running by done.
      unfold handleShutdownSignal. run_monad.
      rewrite forceUnloadAllJobs_spec. simpl.
      rewrite fsm_execute_AllJobsExited by done. reflexivity.
    + done.
    + intros _. split; [done|]. intros k Hk. simpl.
      apply elem_of_app. right. by apply forceUnload_calls_of_fmap.
    + done.
  - eexists. split_and!.
    + unfold bind, handleShutdownSignal at 1. run_monad. rewrite Hst.
      rewrite forceUnloadAllJobs_spec. simpl.
      rewrite fsm_execute_AllJobsExited by done.
      unfold handleShutdownSignal. run_monad. reflexivity.
    + done.
    + intros _. split; [done|]. intros k Hk. simpl.
      apply elem_of_app. right. rewrite <- (map_fmap_id (jobs m)).
      by apply forceUnload_calls_of_fmap.
    + done.
  - exists m. split_and!; try done.
    + unfold bind, handleShutdownSignal. run_monad. rewrite Hst. simpl.
      by rewrite Hst.
    + by intros [|].
Qed.

Lemma startRunning_Running (m : Manager) :
  fsm_state m = Running → startRunning m = startAllJobs m.
Proof.
  intros Hst. destruct (decide (pending_jobs m = ∅)) as [Hp|Hp].
  - rewrite startAllJobs_no_pending by done.
    unfold startRunning, fsm_execute. rewrite Hst. simpl.
    by rewrite bool_decide_true.
  - unfold startRunning, fsm_execute. rewrite Hst. simpl.
    rewrite bool_decide_false by done. simpl. unfold bind, modify.
    destruct (startAllJobs m) as [[[]|e] m1] eqn:Hstart; [|done].
    apply startAllJobs_keeps_state in Hstart. unfold same in Hstart.
    rewrite <- Hst, <- Hstart. by destruct m1.
Qed.

(** X11.  A start request in [Running] is [startAllJobs]: it promotes and
    bootstraps whatever is pending, leaves the manager in [Running], and
    does nothing when nothing is pending. *)
Theorem startRunning_in_Running (m : Manager) :
  fsm_state m = Running →
  startRunning m = startAllJobs m ∧
  (pending_jobs m = ∅ → startRunning m = (Ok tt, m)) ∧
  fsm_state (startRunning m).2 = Running.
Proof.
  intros Hst. pose proof (startRunning_Running m Hst) as Heq.
  split; [done|]. split.
  - intros Hp. rewrite Heq. by apply startAllJobs_no_pending.
  - rewrite Heq. destruct (startAllJobs m) as [r m1] eqn:Hstart.
    apply startAllJobs_keeps_state in Hstart. simpl. by rewrite Hstart.
Qed.

End StartStop.

Lemma bind_run {A B} (c : M A) (k : A → M B) (m : Manager) :
  bind c k m =
    match c m with
    | (Ok a, m1) => k a m1
    | (Throw e, m1) => (Throw e, m1)
    end.
Proof. reflexivity. Qed.

Section Startup.
Context `{Collaborators}.

Lemma loadDefaultManifests_loop paths (m0 : Manager) :
  fsm_state m0 ≠ GracefulShutdown →
  (Forall (λ path, filesystem_failure path = None) paths →
   ∃ m1, for_each paths
           (λ path, loadAllManifests path false false >> ret tt) m0
         = (Ok tt, m1)) ∧
  (∀ e m1,
     for_each paths
       (λ path, loadAllManifests path false false >> ret tt) m0
     = (Throw e, m1) →
     ∃ path, path ∈ paths ∧ filesystem_failure path = Some e).
Proof.
  revert m0. induction paths as [|path paths IH]; intros m0 Hst.
  { split; [by eexists|]. by intros e m1 [=]. }
  rewrite for_each_cons, bind_run.
  destruct (loadAllManifests_result path false false m0 Hst) as [error Hr].
  destruct (loadAllManifests path false false m0) as [r m1] eqn:Hl.
  assert (fsm_state m1 = fsm_state m0) as Hst1.
  { eapply (loadAllManifests_keeps (same fsm_state)); [|done].
    intros. by apply loadManifest_keeps. }
  simpl in Hr. subst r.
  destruct (filesystem_failure path) as [e0|] eqn:Hff; cbn beta iota.
  - split.
    + intros Hall. apply Forall_cons in Hall as [Hnone _]. congruence.
    + intros e m2 [= <- <-]. exists path. split; [left|done].
  - unfold ret at 1. cbn beta iota.
    destruct (IH m1) as [Hok Hthrow]; [by rewrite Hst1|]. split.
    + intros Hall. apply Forall_cons in Hall as [_ Hall]. by apply Hok.
    + intros e m2 Hrun. destruct (Hthrow e m2 Hrun) as (p & Hin & Hp).
      exists p. split; [by right|done].
Qed.

(** [loadDefaultManifests] lets through the errors of the filesystem, and
    only them. *)
Lemma loadDefaultManifests_result (m : Manager) :
  fsm_state m = Unconfigured →
  (Forall (λ path, filesystem_failure path = None) (load_paths (domain m)) →
   ∃ m', loadDefaultManifests m = (Ok tt, m')) ∧
  (∀ e m', loadDefaultManifests m = (Throw e, m') →
     ∃ path, path ∈ load_paths (domain m) ∧
             filesystem_failure path = Some e).
Proof.
  intros Hst. unfold loadDefaultManifests. run_monad. rewrite Hst.
  rewrite bool_decide_true by done. rewrite andb_false_r. simpl.
  apply loadDefaultManifests_loop. by rewrite Hst.
Qed.

Lemma setup_listening (m : Manager) :
  (setupSignalHandlers >> startRpcServer) m = (Ok tt, listening m).
Proof.
  unfold setupSignalHandlers, startRpcServer, add_trace,
    set_signal_handlers, listening.
  run_monad. by rewrite <- !app_assoc.
Qed.

Lemma loadDefaultManifests_frame (m : Manager) r m1 :
  loadDefaultManifests m = (r, m1) →
  fsm_state m1 = fsm_state m ∧ jobs m1 = jobs m ∧ trace m1 = trace m ∧
  signal_handlers m1 = signal_handlers m ∧
  pending_jobs m ⊆ pending_jobs m1 ∧
  (disjoint_jobs m → disjoint_jobs m1).
Proof.
  intros Hload. split_and!.
  - eapply (loadDefaultManifests_keeps (same fsm_state)); [|done].
    intros. by apply loadManifest_keeps.
  - eapply (loadDefaultManifests_keeps (same jobs)); [|done].
    intros. by apply loadManifest_keeps.
  - eapply (loadDefaultManifests_keeps (same trace)); [|done].
    intros. by apply loadManifest_keeps.
  - eapply (loadDefaultManifests_keeps (same signal_handlers)); [|done].
    intros. by apply loadManifest_keeps.
  - eapply (loadDefaultManifests_keeps pending_grows); [|done].
    intros. by apply loadManifest_pending_grows.
  - eapply (loadDefaultManifests_keeps (preserves disjoint_jobs)); [|done].
    intros. by apply loadManifest_disjoint.
Qed.

(** The start of the manager, by what [loadDefaultManifests] does once the
    handlers are installed and the socket is bound. *)
Lemma startRunning_Unconfigured (m : Manager) :
  fsm_state m = Unconfigured →
  disjoint_jobs m →
  match loadDefaultManifests (listening m) with
  | (Ok _, m1) =>
      ∃ m', startRunning m = (Ok tt, m') ∧
            fsm_state m' = Running ∧ pending_jobs m' = ∅ ∧
            signal_handlers m' = true ∧
            jobs m' = (Job_Bootstrap <$> pending_jobs m1) ∪ jobs m ∧
            jobs m ⊆ jobs m' ∧
            trace m' =
              trace (listening m) ++
              (CallBootstrap <$> (map_to_list (pending_jobs m1)).*1) ∧
            state_file m' = state_file m1
  | (Throw e, m1) =>
      startRunning m = (Throw e, m1) ∧
      fsm_state m1 = Unconfigured ∧ jobs m1 = jobs m ∧
      trace m1 = trace (listening m)
  end.
Proof.
  intros Hst Hdisj.
  assert (startRunning m =
            match loadDefaultManifests (listening m) with
            | (Ok _, m1) =>
                match startAllJobs m1 with
                | (Ok _, m2) => (Ok tt, set_fsm_state Running m2)
                | (Throw e, m2) => (Throw e, m2)
                end
            | (Throw e, m1) => (Throw e, m1)
            end) as Hrun.
  { unfold startRunning, fsm_execute. rewrite Hst. simpl.
    pose proof (setup_listening m) as Hsetup.
    rewrite bind_run in Hsetup.
    rewrite bind_run, bind_run.
    destruct (setupSignalHandlers m) as [[[]|e] m0]; [|done].
    cbn beta iota. rewrite bind_run, Hsetup. cbn beta iota.
    rewrite bind_run.
    destruct (loadDefaultManifests (listening m)) as [[[]|e] m1];
      [|done].
    cbn beta iota. by destruct (startAllJobs m1) as [[[]|e] m2]. }
  rewrite Hrun.
  destruct (loadDefaultManifests (listening m)) as [[[]|e] m1] eqn:Hload;
    apply loadDefaultManifests_frame in Hload
      as (Hst1 & Hjobs1 & Htrace1 & Hsig1 & _ & Hdisj1);
    simpl in *.
  - pose proof (startAllJobs_exact m1 (Hdisj1 Hdisj)) as Hstart.
    rewrite Hstart. eexists. split; [reflexivity|]. simpl.
    split_and!; try done.
    + by rewrite Hjobs1.
    + rewrite <- Hjobs1. apply map_union_subseteq_r.
      apply map_disjoint_spec. intros k j1 j2 Hk1 Hk2.
      apply lookup_fmap_Some in Hk1 as (j & _ & Hk1).
      rewrite (Hdisj1 Hdisj k) in Hk2; [done|eauto].
    + by rewrite Htrace1.
  - split_and!; try done. by rewrite Hst1.
Qed.

(** X12.  A start request in [Unconfigured], when no label is both
    pending and active (as in a new manager).  The three signal handlers
    are registered, then the socket [statedir / rpc.sock] is bound with
    backlog 1024 and registered, then the default manifests are loaded.
    When that returns, which it does unless the filesystem fails on a load
    path, the start request returns: the manager is [Running] with
    [pending_jobs] empty, [jobs] holds the jobs it held before together
    with every job that was pending after the loading, bootstrapped, and
    the calls made after the five above are one [Bootstrap] for each of
    these.  When the filesystem fails on a load path its error is thrown
    on and the manager stays [Unconfigured], with the handlers installed
    and the socket bound, and no job started. *)
Theorem startRunning_from_Unconfigured (m : Manager) :
  fsm_state m = Unconfigured →
  disjoint_jobs m →
  match loadDefaultManifests (listening m) with
  | (Ok _, m1) =>
      ∃ m', startRunning m = (Ok tt, m') ∧
            fsm_state m' = Running ∧ pending_jobs m' = ∅ ∧
            signal_handlers m' = true ∧
            jobs m' = (Job_Bootstrap <$> pending_jobs m1) ∪ jobs m ∧
            jobs m ⊆ jobs m' ∧
            trace m' =
              trace m ++
              [ CallAddSignal SIGPIPE; CallAddSignal SIGINT;
                CallAddSignal SIGTERM;
                CallBindAndListen
                  (path_append (statedir (domain m)) "rpc.sock") 1024;
                CallAddSocketRead ] ++
              (CallBootstrap <$> (map_to_list (pending_jobs m1)).*1)
  | (Throw e, m1) =>
      startRunning m = (Throw e, m1) ∧
      fsm_state m1 = Unconfigured ∧ jobs m1 = jobs m ∧
      signal_handlers m1 = true ∧
      (∃ path, path ∈ load_paths (domain m) ∧
               filesystem_failure path = Some e)
  end ∧
  (Forall (λ path, filesystem_failure path = None) (load_paths (domain m)) →
   ∃ m1, loadDefaultManifests (listening m) = (Ok tt, m1)) ∧
  (path_append (statedir (domain m)) "rpc.sock" =
     if has_filename (statedir (domain m))
     then statedir (domain m) +:+ "/rpc.sock"
     else statedir (domain m) +:+ "rpc.sock").
Proof.
  intros Hst Hdisj.
  pose proof (startRunning_Unconfigured m Hst Hdisj) as Hrun.
  destruct (loadDefaultManifests_result (listening m) Hst) as [Hok Hthrow].
  split; [|split; [exact Hok|]].
  - destruct (loadDefaultManifests (listening m)) as [[[]|e] m1] eqn:Hload.
    + destruct Hrun as (m' & Hstart & Hst' & Hp & Hsig & Hjobs & Hsub
                        & Htrace & _).
      exists m'. split_and!; try done.
      rewrite Htrace. simpl. by rewrite <- app_assoc.
    + destruct Hrun as (Hstart & Hst1 & Hjobs1 & _).
      pose proof (Hthrow _ _ eq_refl) as Hpath.
      apply loadDefaultManifests_frame in Hload as (_ & _ & _ & Hsig & _).
      by split_and!.
  - unfold path_append. simpl. by destruct (has_filename _).
Qed.

End Startup.

(** ** Ticks and the main loop *)

Section Loop.
Context `{Collaborators}.

Lemma handleEvent_result timeout fired (m : Manager) b m' :
  handleEvent timeout fired m = (Ok b, m') →
  b = negb (bool_decide (fsm_state m' = Finished)).
Proof.
  unfold handleEvent. rewrite bind_run. unfold gets at 1. cbn beta iota.
  rewrite bind_run.
  match goal with |- context [match ?c m with _ => _ end] =>
    destruct (c m) as [[[]|e] m1] end; [|done].
  unfold gets. by intros [= <- <-].
Qed.

Lemma runMainLoop_loop_result ticks (m : Manager) :
  fsm_state m ≠ Finished →
  match runMainLoop_loop ticks m with
  | (Some (Ok _), m') => fsm_state m' = Finished
  | (None, m') => fsm_state m' ≠ Finished
  | (Some (Throw _), _) => True
  end.
Proof.
  revert m. induction ticks as [|fired ticks IH]; intros m Hst; simpl;
    [done|].
  destruct (handleEvent None fired m) as [[[]|e] m1] eqn:Hev; [| |done].
  - apply IH. apply handleEvent_result in Hev.
    symmetry in Hev. apply negb_true_iff in Hev.
    by apply bool_decide_eq_false in Hev.
  - apply handleEvent_result in Hev.
    symmetry in Hev. apply negb_false_iff in Hev.
    by apply bool_decide_eq_true in Hev.
Qed.

(** X13.  [runMainLoop] returns only when the manager is [Finished], and
    as long as it is still looping the manager is not [Finished].
    [runOnce] and [handleEvent] return false exactly when the manager is
    [Finished] after the tick. *)
Theorem main_loop_ends_when_Finished (m : Manager) :
  (∀ ticks,
     match runMainLoop ticks m with
     | (Some (Ok _), m') => fsm_state m' = Finished
     | (None, m') => fsm_state m' ≠ Finished
     | (Some (Throw _), _) => True
     end) ∧
  (∀ timeout fired,
     match runOnce timeout fired m with
     | (Ok b, m') => b = false ↔ fsm_state m' = Finished
     | (Throw _, _) => True
     end) ∧
  (∀ timeout fired,
     match handleEvent timeout fired m with
     | (Ok b, m') => b = false ↔ fsm_state m' = Finished
     | (Throw _, _) => True
     end).
Proof.
  assert (∀ timeout fired,
            match handleEvent timeout fired m with
            | (Ok b, m') => b = false ↔ fsm_state m' = Finished
            | (Throw _, _) => True
            end) as Htick.
  { intros timeout fired.
    destruct (handleEvent timeout fired m) as [[b|e] m'] eqn:Hev; [|done].
    apply handleEvent_result in Hev as ->.
    rewrite negb_false_iff. apply bool_decide_eq_true. }
  split_and!; [| |done].
  - intros ticks. unfold runMainLoop. case_bool_decide as Hst; [done|].
    apply runMainLoop_loop_result.
    destruct (decide (fsm_state m = Running)) as [->|]; done.
  - intros timeout fired. unfold runOnce. rewrite bind_run.
    unfold gets at 1. cbn beta iota. case_bool_decide; [done|].
    apply Htick.
Qed.

Lemma deleted_jobs_cons ev fired (js : gmap string Job) :
  deleted_jobs (ev :: fired) js = deleted_jobs fired (deleted_jobs [ev] js).
Proof. reflexivity. Qed.

Lemma deleted_jobs_lookup fired (js : gmap string Job) k :
  deleted_jobs fired js !! k =
    if bool_decide (EvIpcMethod "delete_job" k ∈ fired) then None
    else js !! k.
Proof.
  revert js. induction fired as [|ev fired IH]; intros js.
  - rewrite bool_decide_false by apply not_elem_of_nil. done.
  - rewrite deleted_jobs_cons, IH. clear IH.
    destruct (decide (EvIpcMethod "delete_job" k ∈ fired)) as [Hin|Hin].
    + rewrite !bool_decide_true; [done| |done]. by right.
    + rewrite (bool_decide_false _ Hin).
      destruct ev as [sig|name arg]; unfold deleted_jobs; simpl.
      * rewrite bool_decide_false; [done|].
        by intros [?|?]%elem_of_cons.
      * case_bool_decide as Hname.
        -- subst name. destruct (decide (arg = k)) as [->|Hne].
           ++ rewrite lookup_delete_eq, bool_decide_true; [done|by left].
           ++ rewrite lookup_delete_ne by done.
              rewrite bool_decide_false; [done|].
              intros [[=]|?]%elem_of_cons; done.
        -- rewrite bool_decide_false; [done|].
           intros [[=]|?]%elem_of_cons; done.
Qed.

Lemma for_each_dispatch_quiet_exact fired (m : Manager) :
  forallb (λ ev, negb (is_shutdown_signal ev)) fired = true →
  for_each fired dispatch m =
    (Ok tt, set_jobs (deleted_jobs fired (jobs m)) m).
Proof.
  revert m. induction fired as [|ev fired IH]; intros m; simpl.
  - intros _. by destruct m.
  - intros [Hev Hrest]%andb_true_iff. apply negb_true_iff in Hev.
    rewrite bind_run.
    assert (dispatch ev m =
              (Ok tt, set_jobs (deleted_jobs [ev] (jobs m)) m)) as ->.
    { destruct ev as [[]|name arg]; try done; unfold dispatch; run_monad.
      - by destruct (signal_handlers m), m.
      - unfold delete_job. run_monad. case_bool_decide; by destruct m. }
    rewrite IH by done. done.
Qed.

(** X14.  A tick in [Running], or in [GracefulShutdown] with jobs left,
    during which the wait delivers nothing but [SIGPIPE] and calls of the
    IPC method [delete_job], the two callbacks registered here that do not
    shut the manager down (no request is read from the RPC socket, no
    callback of a job and no IPC method registered elsewhere runs): the
    tick returns true and leaves the state as it is.  It makes one wait
    (with the caller's timeout in [Running], with 500 ms in
    [GracefulShutdown]); the jobs named by a [delete_job] call among the
    events are gone from [jobs], and all other jobs, [pending_jobs] and the
    state document are as before. *)
Theorem quiet_tick timeout fired (m : Manager) :
  forallb own_quiet_event fired = true →
  fsm_state m = Running ∨ (fsm_state m = GracefulShutdown ∧ jobs m ≠ ∅) →
  ∃ m', handleEvent timeout fired m = (Ok true, m') ∧
        fsm_state m' = fsm_state m ∧
        trace m' =
          trace m ++
          [CallWaitForEvent
             (if bool_decide (fsm_state m = Running) then timeout
              else Some 500)] ∧
        (∀ k, jobs m' !! k =
                if bool_decide (EvIpcMethod "delete_job" k ∈ fired)
                then None else jobs m !! k) ∧
        pending_jobs m' = pending_jobs m ∧
        state_file m' = state_file m.
Proof.
  intros Hown Hst.
  assert (forallb (λ ev, negb (is_shutdown_signal ev)) fired = true)
    as Hquiet.
  { apply forallb_forall. intros ev Hev.
    rewrite forallb_forall in Hown. apply Hown in Hev.
    by destruct ev as [[]|name arg]. }
  clear Hown. unfold handleEvent, waitForEvent.
  destruct Hst as [Hst|[Hst Hjobs]].
  - eexists. split_and!.
    + run_monad. rewrite Hst. simpl.
      rewrite for_each_dispatch_quiet_exact by done. simpl.
      rewrite Hst. reflexivity.
    + done.
    + simpl. by rewrite Hst.
    + intros k. simpl. apply deleted_jobs_lookup.
    + done.
    + done.
  - eexists. split_and!.
    + run_monad. rewrite Hst. simpl.
      rewrite bool_decide_false by done.
      rewrite for_each_dispatch_quiet_exact by done. simpl.
      rewrite Hst. reflexivity.
    + done.
    + simpl. by rewrite Hst.
    + intros k. simpl. apply deleted_jobs_lookup.
    + done.
    + done.
Qed.

(** X15.  Graceful shutdown drains in two ticks: in [GracefulShutdown], a
    tick that delivers [delete_job] for every remaining job (and no
    shutdown signal) returns true with [jobs] empty, and the tick after it
    returns false with the manager [Finished], whatever it is given, and
    without waiting. *)
Theorem graceful_shutdown_drains timeout fired (m : Manager) :
  fsm_state m = GracefulShutdown →
  jobs m ≠ ∅ →
  forallb (λ ev, negb (is_shutdown_signal ev)) fired = true →
  (∀ k, is_Some (jobs m !! k) → EvIpcMethod "delete_job" k ∈ fired) →
  ∃ m1, handleEvent timeout fired m = (Ok true, m1) ∧
        jobs m1 = ∅ ∧
        ∀ timeout' fired',
          handleEvent timeout' fired' m1
            = (Ok false, set_fsm_state Finished m1).
Proof.
  intros Hst Hjobs Hquiet Hall. unfold handleEvent at 1. unfold waitForEvent.
  eexists. split_and!.
  - run_monad. rewrite Hst. simpl. rewrite bool_decide_false by done.
    rewrite for_each_dispatch_quiet_exact by done. simpl.
    rewrite Hst. reflexivity.
  - simpl. apply map_eq. intros k. rewrite deleted_jobs_lookup, lookup_empty.
    case_bool_decide as Hin; [done|].
    destruct (jobs m !! k) eqn:Hk; [|done].
    destruct Hin. apply Hall. eauto.
  - intros timeout' fired'. unfold handleEvent. run_monad. rewrite Hst.
    simpl.
    assert (deleted_jobs fired (jobs m) = ∅) as ->.
    { apply map_eq. intros k. rewrite deleted_jobs_lookup, lookup_empty.
      case_bool_decide as Hin; [done|].
      destruct (jobs m !! k) eqn:Hk; [|done].
      destruct Hin. apply Hall. eauto. }
    rewrite bool_decide_true by done.
    rewrite fsm_execute_AllJobsExited by done. done.
Qed.

End Loop.

(** ** The state document *)

Section StateDocument.
Context `{Collaborators}.

(** The document that [overrideJobEnabled] writes: the record of the label
    gets its [Enabled] member, and nothing else is touched. *)
Lemma override_doc_written doc label enabled doc' :
  override_doc doc label enabled = Ok doc' →
  ∃ d o, doc = JObj d ∧
         (d !! "Overrides" = Some (JObj o) ∨
          d !! "Overrides" = Some JNull ∧ o = ∅) ∧
         doc' =
           JObj (<[ "Overrides" :=
                    JObj (<[ label :=
                             JObj (<[ "Enabled" := JBool enabled ]>
                                     (record_members (o !! label))) ]> o) ]>
                   d).
Proof.
  unfold override_doc.
  destruct doc as [| | | | |d]; simpl; try done.
  destruct (d !! "Overrides") as [ov|] eqn:Hov; simpl; [|done].
  destruct ov as [| | | | |o]; simpl; try done.
  - intros [= <-]. exists d, ∅. split; [done|]. split; [by right|].
    by rewrite lookup_empty.
  - destruct (o !! label) as [v|] eqn:Hv.
    + rewrite bool_decide_true by eauto. simpl.
      destruct v as [| | | | |e]; simpl; try done;
        intros [= <-]; exists d, o; (split; [done|]); (split; [by left|]);
        by rewrite Hv.
    + rewrite bool_decide_false by (intros [? ?]; done). simpl.
      intros [= <-]. exists d, o. split; [done|]. split; [by left|].
      by rewrite Hv.
Qed.

(** X16.  [overrideJobEnabled] writes one record and nothing else.  When
    it returns, the document it has written is the one it read with the
    [Enabled] member of the record of the label set to the given value:
    the other members of that record, the records of all other labels and
    the other members of the document (such as [SchemaVersion]) are the
    ones read, a missing or null record (or a null [Overrides]) counting
    as empty; and no other part of the manager has changed.  When it
    throws, for a document that does not have this form or because the
    write fails, the manager is unchanged. *)
Theorem overrideJobEnabled_effect label enabled (m : Manager) :
  match overrideJobEnabled label enabled m with
  | (Ok _, m') =>
      m' = set_state_file (state_file m') m ∧
      Overrides_Enabled (state_file m') label = Some enabled ∧
      StateFile_setValue (state_file m') = Ok tt ∧
      ∃ d o, state_file m = JObj d ∧
             (d !! "Overrides" = Some (JObj o) ∨
              d !! "Overrides" = Some JNull ∧ o = ∅) ∧
             state_file m' =
               JObj (<[ "Overrides" :=
                        JObj (<[ label :=
                                 JObj (<[ "Enabled" := JBool enabled ]>
                                         (record_members (o !! label))) ]>
                                o) ]>
                       d)
  | (Throw _, m') => m' = m
  end.
Proof.
  destruct (overrideJobEnabled label enabled m) as [[[]|e] m'] eqn:Hw.
  - pose proof (overrideJobEnabled_ok _ _ _ _ Hw) as [Hm' Hen].
    pose proof (overrideJobEnabled_persisted _ _ _ _ Hw) as Hset.
    split_and!; try done.
    rewrite overrideJobEnabled_unfold in Hw.
    destruct (override_doc (state_file m) label enabled) as [doc'|] eqn:Hdoc;
      [|done].
    destruct (StateFile_setValue doc') as [[]|]; [|done].
    injection Hw as <-. simpl. by apply override_doc_written.
  - by eapply overrideJobEnabled_throw.
Qed.

Lemma override_doc_schema doc label enabled :
  doc_follows_schema doc →
  ∃ doc', override_doc doc label enabled = Ok doc' ∧
          doc_follows_schema doc'.
Proof.
  intros (d & o & -> & Hov & Hall).
  unfold override_doc. simpl. rewrite Hov. simpl.
  destruct (o !! label) as [v|] eqn:Hv.
  - rewrite bool_decide_true by eauto. simpl.
    destruct (Hall label v Hv) as (e & b & -> & He). simpl.
    eexists. split; [reflexivity|].
    eexists _, _. split; [reflexivity|]. split; [apply lookup_insert_eq|].
    intros l v [[<- <-]|[Hne Hl]]%lookup_insert_Some; [|by eapply Hall].
    eexists _, enabled. split; [reflexivity|]. apply lookup_insert_eq.
  - rewrite bool_decide_false by (intros [? ?]; done). simpl.
    eexists. split; [reflexivity|].
    eexists _, _. split; [reflexivity|]. split; [apply lookup_insert_eq|].
    intros l v [[<- <-]|[Hne Hl]]%lookup_insert_Some; [|by eapply Hall].
    eexists _, enabled. split; [reflexivity|]. apply lookup_singleton_eq.
Qed.

Lemma overrideJobEnabled_schema label enabled (m : Manager) :
  doc_follows_schema (state_file m) →
  ∃ doc', doc_follows_schema doc' ∧
          overrideJobEnabled label enabled m =
            match StateFile_setValue doc' with
            | Ok _ => (Ok tt, set_state_file doc' m)
            | Throw e => (Throw e, m)
            end.
Proof.
  intros Hschema.
  destruct (override_doc_schema _ label enabled Hschema)
    as (doc' & Hdoc & Hschema').
  exists doc'. split; [done|].
  by rewrite overrideJobEnabled_unfold, Hdoc.
Qed.

Lemma refused_by_state_file_schema doc label fl :
  doc_follows_schema doc →
  ∃ refused, refused_by_state_file doc label fl = Ok refused.
Proof.
  intros (d & o & -> & Hov & Hall). unfold refused_by_state_file. simpl.
  rewrite Hov. simpl.
  destruct (o !! label) as [v|] eqn:Hv.
  - rewrite bool_decide_true by eauto. simpl.
    destruct (Hall label v Hv) as (e & b & -> & He). simpl.
    rewrite He. simpl. by eexists.
  - rewrite bool_decide_false by (intros [? ?]; done). by eexists.
Qed.

(** On a document that follows the schema, [loadManifest] keeps the schema
    and throws nothing but the error of a failed write. *)
Lemma loadManifest_schema jsondata path od fl (m : Manager) :
  doc_follows_schema (state_file m) →
  doc_follows_schema (state_file (loadManifest jsondata path od fl m).2) ∧
  (od = false → ∃ loaded, (loadManifest jsondata path od fl m).1 = Ok loaded) ∧
  (∀ e, (loadManifest jsondata path od fl m).1 = Throw e →
        ∃ doc', StateFile_setValue doc' = Throw e).
Proof.
  intros Hschema.
  assert (∀ loaded, loadManifest jsondata path od fl m = (Ok loaded, m) →
            doc_follows_schema
              (state_file (loadManifest jsondata path od fl m).2) ∧
            (od = false →
             ∃ loaded, (loadManifest jsondata path od fl m).1 = Ok loaded) ∧
            (∀ e, (loadManifest jsondata path od fl m).1 = Throw e →
                  ∃ doc', StateFile_setValue doc' = Throw e)) as Hsame.
  { intros loaded ->. simpl. split_and!; [done|by eexists|done]. }
  destruct (decide (fsm_state m = GracefulShutdown)) as [Hst|Hst].
  { apply (Hsame false). by apply loadManifest_GracefulShutdown. }
  destruct (manifest_from_json jsondata) as [mf|e] eqn:Hmf.
  2:{ apply (Hsame false). by apply (loadManifest_invalid _ _ _ _ _ e). }
  destruct (jobs m !! label mf) as [j|] eqn:Ha.
  { apply (Hsame false). apply (loadManifest_duplicate _ mf); [done|].
    right. rewrite Ha. eauto. }
  destruct (pending_jobs m !! label mf) as [j|] eqn:Hp.
  { apply (Hsame false). apply (loadManifest_duplicate _ mf); [done|].
    left. rewrite Hp. eauto. }
  clear Hsame.
  assert (∀ m0 : Manager,
            fsm_state m0 = fsm_state m → jobs m0 = jobs m →
            pending_jobs m0 = pending_jobs m →
            doc_follows_schema (state_file m0) →
            ∃ loaded m',
              loadManifest jsondata path false fl m0 = (Ok loaded, m') ∧
              doc_follows_schema (state_file m')) as Hplain.
  { intros m0 Hst0 Ha0 Hp0 Hschema0.
    rewrite (loadManifest_plain _ mf) by congruence.
    destruct (disabled mf && negb fl); [by eexists _, _|].
    destruct (refused_by_state_file_schema (state_file m0) (label mf) fl)
      as [[] ->]; [done|..]; by eexists _, _. }
  destruct od.
  - rewrite (loadManifest_override _ mf) by done.
    destruct (overrideJobEnabled_schema (label mf) true m Hschema)
      as (doc' & Hschema' & ->).
    destruct (StateFile_setValue doc') as [[]|e] eqn:Hset.
    + destruct (Hplain (set_state_file doc' m)) as (loaded & m' & -> & Hs);
        [done..|].
      simpl. split_and!; [done|done|done].
    + simpl. split_and!; [done|done|].
      intros e' [= <-]. by exists doc'.
  - destruct (Hplain m) as (loaded & m' & -> & Hs); [done..|].
    simpl. split_and!; [done|by eexists|done].
Qed.

Lemma defaultStateDoc_schema : doc_follows_schema defaultStateDoc.
Proof.
  eexists _, ∅. split; [reflexivity|]. split; [done|].
  intros l v Hl. by rewrite lookup_empty in Hl.
Qed.

(** X17.  The schema of the state file is an invariant, and on a document
    that follows it no access to the document raises a JSON error:
    [overrideJobEnabled] computes a document that follows the schema and
    returns exactly when the write of it does, the error of a failed write
    being thrown on with the document as it was; [loadManifest] throws
    nothing but the error of a failed write, returns when
    [overrideDisabled] is not set, and leaves a document that follows the
    schema, as does [loadAllManifests].  The default document of a new
    manager follows the schema. *)
Theorem state_document_schema_kept (m : Manager) :
  doc_follows_schema (state_file m) →
  (∀ label enabled,
     ∃ doc', doc_follows_schema doc' ∧
             overrideJobEnabled label enabled m =
               match StateFile_setValue doc' with
               | Ok _ => (Ok tt, set_state_file doc' m)
               | Throw e => (Throw e, m)
               end) ∧
  (∀ jsondata path od fl,
     doc_follows_schema (state_file (loadManifest jsondata path od fl m).2) ∧
     (od = false →
      ∃ loaded, (loadManifest jsondata path od fl m).1 = Ok loaded) ∧
     (∀ e, (loadManifest jsondata path od fl m).1 = Throw e →
           ∃ doc', StateFile_setValue doc' = Throw e)) ∧
  (∀ path od fl,
     doc_follows_schema (state_file (loadAllManifests path od fl m).2)) ∧
  (∀ dom, doc_follows_schema (state_file (Manager_new dom None))).
Proof.
  intros Hschema. split_and!.
  - intros. by apply overrideJobEnabled_schema.
  - intros. by apply loadManifest_schema.
  - intros path od fl.
    destruct (loadAllManifests path od fl m) as [r m'] eqn:Hload. simpl.
    eapply (loadAllManifests_keeps
              (preserves (λ m, doc_follows_schema (state_file m))));
      [|done|done].
    intros jsondata path' od' fl' m0 r0 m0' Hload0 Hschema0.
    destruct (loadManifest_schema jsondata path' od' fl' m0 Hschema0)
      as (Hschema1 & _).
    by rewrite Hload0 in Hschema1.
  - intros dom. apply defaultStateDoc_schema.
Qed.

End StateDocument.

(** ** The control operations *)

Section Control.
Context `{Collaborators} `{ControlCollaborators}.



(** X19.  Operations on a label that is not active (unknown, or only
    pending): [unloadJob] and [killJob] return false and change nothing,
    [unloadJob] writing no override even with [overrideDisabled]; [dumpJob]
    has no such check and throws [std::out_of_range].  [killJob] with an
    unknown signal name returns false for every label. *)
Theorem operations_on_inactive_label l (m : Manager) :
  jobs m !! l = None →
  (∀ od force, unloadJob l od force m = (Ok false, m)) ∧
  (∀ signame, killJob l signame m = (Ok false, m)) ∧
  dumpJob l m = (Throw (out_of_range "unordered_map::at"), m) ∧
  (∀ l' signame, getSignalByName signame = None →
                 killJob l' signame m = (Ok false, m)).
Proof.
  intros Hl. split_and!.
  - intros. by apply unloadJob_not_loaded.
  - intros signame. unfold killJob, jobExists.
    destruct (getSignalByName signame); [|done]. run_monad.
    by rewrite Hl, bool_decide_false by (intros [? ?]; done).
  - unfold dumpJob, getJob. run_monad. by rewrite Hl.
  - intros l' signame Hsig. unfold killJob. by rewrite Hsig.
Qed.

(** X20.  A path that cannot be parsed: [unloadJob] catches the parser's
    exception and returns false, [loadManifest] lets it through; neither
    changes the manager.  [unloadJob] on a path also returns false when
    the document has no [Label] member, throws a type error when [Label]
    is not a string, and otherwise is [unloadJob] on that label. *)
Theorem operations_on_a_path path od force (m : Manager) :
  (∀ e, manifest_parse path = Throw e →
        unloadJob_path path od force m = (Ok false, m) ∧
        ∀ fl, loadManifest_path path od fl m = (Throw e, m)) ∧
  (∀ obj, manifest_parse path = Ok obj →
          Json.contains obj "Label" = false →
          unloadJob_path path od force m = (Ok false, m)) ∧
  (∀ obj v, manifest_parse path = Ok obj →
            Json.at_ obj "Label" = Ok v → (∀ s, v ≠ JStr s) →
            unloadJob_path path od force m
              = (Throw (json_type_error 302), m)) ∧
  (∀ obj buf l, manifest_parse path = Ok obj →
                Json.at_ obj "Label" = Ok (JStr buf) →
                Label_new buf = Ok l →
                unloadJob_path path od force m = unloadJob l od force m).
Proof.
  split_and!.
  - intros e Hparse. split.
    + unfold unloadJob_path. by rewrite Hparse.
    + intros fl. unfold loadManifest_path. run_monad. by rewrite Hparse.
  - intros obj Hparse Hno. unfold unloadJob_path. by rewrite Hparse, Hno.
  - intros obj v Hparse Hat Hv. unfold unloadJob_path. rewrite Hparse.
    assert (Json.contains obj "Label" = true) as ->.
    { destruct obj; try done. simpl in *.
      destruct (o !! "Label"); [|done]. by apply bool_decide_eq_true. }
    run_monad. rewrite Hat. simpl.
    destruct v; try done. by destruct (Hv s).
  - intros obj buf l Hparse Hat Hnew. unfold unloadJob_path. rewrite Hparse.
    assert (Json.contains obj "Label" = true) as ->.
    { destruct obj; try done. simpl in *.
      destruct (o !! "Label"); [|done]. by apply bool_decide_eq_true. }
    rewrite bind_run. unfold lift at 1. rewrite Hat. simpl.
    rewrite bind_run. unfold lift at 1. by rewrite Hnew.
Qed.

(** X21.  [~Manager] unbinds the RPC socket and then force-unloads every
    active job, once each, in any state of the manager; [jobs] is empty
    afterwards, and the state, [pending_jobs] and the state document are
    left as they were. *)
Theorem Manager_destroy_effect (m : Manager) :
  ∃ m', Manager_destroy m = (Ok tt, m') ∧ jobs m' = ∅ ∧
        trace m' =
          trace m ++ CallUnbindAndStopListening ::
            (CallForceUnloadJob <$> (map_to_list (jobs m)).*1) ∧
        NoDup (map_to_list (jobs m)).*1 ∧
        (∀ k, is_Some (jobs m !! k) ↔ k ∈ (map_to_list (jobs m)).*1) ∧
        fsm_state m' = fsm_state m ∧ pending_jobs m' = pending_jobs m ∧
        state_file m' = state_file m.
Proof.
  eexists. split_and!.
  - unfold Manager_destroy. rewrite bind_run. unfold modify at 1.
    cbn beta iota. rewrite forceUnloadAllJobs_spec. reflexivity.
  - done.
  - simpl. by rewrite <- app_assoc.
  - apply NoDup_fst_map_to_list.
  - intros k. rewrite list_elem_of_fmap. split.
    + intros [j Hj]. exists (k, j). split; [done|].
      by apply elem_of_map_to_list.
    + intros ([k' j] & -> & Hin%elem_of_map_to_list). eauto.
  - done.
  - done.
  - done.
Qed.

End Control.

(** ** Listing and naming *)

Lemma pretty_N_go_nonempty x s : s ≠ "" → pretty_N_go x s ≠ "".
Proof.
  revert s. induction (N.lt_wf_0 x) as [x _ IH]; intros s Hs.
  destruct (decide (x = 0)%N) as [->|Hx].
  - by rewrite pretty_N_go_0.
  - rewrite pretty_N_go_step by lia. apply IH; [|done].
    apply N.div_lt; lia.
Qed.

Lemma pretty_Z_not_dash (z : Z) : pretty z ≠ "-".
Proof.
  destruct z as [|p|p]; unfold pretty, pretty_Z; [done|..].
  - unfold pretty, pretty_positive, pretty, pretty_N.
    case_decide; [done|]. by apply (pretty_N_go_ne_dash _ "" "").
  - unfold pretty, pretty_positive, pretty, pretty_N.
    case_decide; [done|]. simpl. intros [= Hempty].
    revert Hempty. rewrite pretty_N_go_step by lia.
    by apply pretty_N_go_nonempty.
Qed.

(** X22.  [listJobs] does not change the manager and returns one entry
    per active job and none for a pending job: the [Label] members of the
    entries are exactly the labels of the manifests of the jobs in
    [jobs]. *)
Theorem listJobs_lists_active_jobs (m : Manager) :
  ∃ entries, listJobs m = (Ok (JArr entries), m) ∧
             length entries = size (jobs m) ∧
             ∀ l, Some (JStr l) ∈ entry_field "Label" <$> entries ↔
                  ∃ k j, jobs m !! k = Some j ∧ label (manifest j) = l.
Proof.
  eexists. split; [reflexivity|]. split.
  - by rewrite length_fmap, length_map_to_list.
  - intros l. rewrite list_elem_of_fmap. split.
    + intros (entry & Hl & ([k j] & -> & Hin%elem_of_map_to_list)
                             %list_elem_of_fmap).
      simpl in Hl. rewrite lookup_insert_eq in Hl. injection Hl as ->.
      by exists k, j.
    + intros (k & j & Hkj & <-). exists (listJobs_entry j). split.
      * simpl. by rewrite lookup_insert_eq.
      * apply list_elem_of_fmap. exists (k, j). split; [done|].
        by apply elem_of_map_to_list.
Qed.

(** X23.  The [PID] member of an entry of [listJobs] tells the process
    apart: it is ["-"] exactly when the job has no process ([pid = 0]),
    and two jobs have the same [PID] member exactly when they have the
    same [pid].  The [LastExitStatus] member is the job's exit status. *)
Theorem listJobs_entry_fields (job1 job2 : Job) :
  (entry_field "PID" (listJobs_entry job1) = Some (JStr "-") ↔
   pid job1 = 0) ∧
  (entry_field "PID" (listJobs_entry job1)
     = entry_field "PID" (listJobs_entry job2) ↔ pid job1 = pid job2) ∧
  entry_field "LastExitStatus" (listJobs_entry job1)
    = Some (JNum (last_exit_status job1)).
Proof.
  unfold listJobs_entry, entry_field.
  repeat first
    [ rewrite lookup_insert_eq
    | rewrite lookup_insert_ne by done
    | rewrite lookup_singleton_eq ].
  split_and!; [| |done].
  - case_bool_decide as Hpid; [done|]. split; [|done].
    intros [= Hdash]. by destruct (pretty_Z_not_dash (pid job1)).
  - do 2 case_bool_decide; split; try congruence.
    + intros [= Hdash]. symmetry in Hdash.
      by destruct (pretty_Z_not_dash (pid job2)).
    + intros [= Hdash]. by destruct (pretty_Z_not_dash (pid job1)).
    + intros [= Heq]. by apply (inj pretty).
Qed.

(** X24.  [stateToString] and [triggerToString] name every state and
    every trigger differently. *)
Theorem state_and_trigger_names_distinct :
  (∀ s1 s2, stateToString s1 = stateToString s2 → s1 = s2) ∧
  (∀ t1 t2, triggerToString t1 = triggerToString t2 → t1 = t2).
Proof. split; intros [] []; by intros [=]. Qed.

(** ** The invariant of the registry *)


Lemma registry_kept_never_back (m m' : Manager) :
  registry_kept m m' → never_back m m'.
Proof. intros (Hst & _). unfold never_back. by rewrite Hst. Qed.

Section Invariant.
Context `{Collaborators} `{ControlCollaborators}.

Lemma overrideJobEnabled_registry l enabled :
  keeps registry_kept (overrideJobEnabled l enabled).
Proof.
  intros m [[]|e] m' Hw.
  - apply overrideJobEnabled_ok in Hw as [-> _]. by unfold registry_kept.
  - by apply overrideJobEnabled_throw in Hw as ->.
Qed.

Lemma call_unloadJob_registry key job force (m : Manager) r m' :
  is_Some (jobs m !! key) →
  call_unloadJob key job force m = (r, m') → registry_kept m m'.
Proof.
  intros Hkey. unfold call_unloadJob.
  destruct (Job_unloadJob force job) as [r' job']. intros [= <- <-].
  unfold registry_kept. simpl. split_and!; [done..|].
  rewrite dom_insert_L. apply elem_of_dom in Hkey.
  apply union_subseteq. split; [by apply singleton_subseteq_l|done].
Qed.

Lemma unloadJob_registry l od force : keeps registry_kept (unloadJob l od force).
Proof.
  intros m r m'. unfold unloadJob, unloadJob_job, jobExists, getJob.
  rewrite bind_run. unfold gets at 1. cbn beta iota.
  destruct (jobs m !! l) as [job|] eqn:Hjob.
  2:{ rewrite bool_decide_false by (intros [? ?]; done).
      by intros [= <- <-]. }
  rewrite bool_decide_true by eauto. simpl.
  rewrite bind_run, Hjob. cbn beta iota.
  rewrite bind_run. unfold gets at 1. cbn beta iota.
  case_bool_decide; [|by intros [= <- <-]].
  rewrite bind_run.
  destruct od.
  - destruct (overrideJobEnabled (label (manifest job)) false m)
      as [[[]|e] m1] eqn:Hw.
    + pose proof (overrideJobEnabled_registry _ _ _ _ _ Hw) as Hkept.
      apply overrideJobEnabled_ok in Hw as [Hm1 _].
      intros Hcall. etrans; [done|].
      eapply call_unloadJob_registry; [|done]. rewrite Hm1. simpl. eauto.
    + intros [= <- <-]. by eapply overrideJobEnabled_registry.
  - unfold ret. intros Hcall.
    eapply call_unloadJob_registry; [|done]. eauto.
Qed.

Lemma unloadJob_path_registry path od force :
  keeps registry_kept (unloadJob_path path od force).
Proof.
  unfold unloadJob_path.
  repeat first [ apply unloadJob_registry | keeps_step ].
Qed.

Lemma killJob_registry l signame : keeps registry_kept (killJob l signame).
Proof.
  intros m r m'. unfold killJob, jobExists, getJob.
  destruct (getSignalByName signame) as [signum|]; [|by intros [= <- <-]].
  rewrite bind_run. unfold gets at 1. cbn beta iota.
  destruct (jobs m !! l) as [job|] eqn:Hjob.
  2:{ rewrite bool_decide_false by (intros [? ?]; done).
      by intros [= <- <-]. }
  rewrite bool_decide_true by eauto. simpl. rewrite bind_run, Hjob.
  cbn beta iota. destruct (Job_killJob signum job) as [success job'].
  intros [= <- <-]. unfold registry_kept. simpl. split_and!; [done..|].
  rewrite dom_insert_L. apply union_subseteq. split; [|done].
  apply singleton_subseteq_l, elem_of_dom. eauto.
Qed.













End Invariant.

Section Advance.
Context `{Collaborators} `{ControlCollaborators}.

Lemma same_state_never_back (m m' : Manager) :
  same fsm_state m m' → never_back m m'.
Proof. unfold same, never_back. by intros ->. Qed.

Lemma serve_never_back req (m : Manager) : never_back m (serve req m).
Proof.
  destruct req
    as [ | | ticks | timeout fired | timeout fired
       | jsondata path overrideDisabled forceLoad
       | path overrideDisabled forceLoad | path overrideDisabled forceLoad
       | lbl overrideDisabled forceUnload | path overrideDisabled forceUnload
       | | lbl signame | lbl | ];
    simpl.
  - destruct (startRunning m) as [r m'] eqn:Hrun.
    by eapply (fsm_execute_never_back StartRequested).
  - destruct (stopRunning m) as [r m'] eqn:Hrun.
    by eapply (fsm_execute_never_back StopRequested).
  - unfold runMainLoop. case_bool_decide; [done|].
    apply runMainLoop_loop_never_back.
  - destruct (runOnce timeout fired m) as [r m'] eqn:Hrun.
    by eapply runOnce_never_back.
  - destruct (handleEvent timeout fired m) as [r m'] eqn:Hrun.
    by eapply handleEvent_never_back.
  - destruct (loadManifest jsondata path overrideDisabled forceLoad m)
      as [r m'] eqn:Hrun.
    apply same_state_never_back. by eapply (loadManifest_keeps fsm_state).
  - destruct (loadManifest_path path overrideDisabled forceLoad m)
      as [r m'] eqn:Hrun.
    apply same_state_never_back.
    by eapply (loadManifest_path_keeps fsm_state).
  - destruct (loadAllManifests path overrideDisabled forceLoad m)
      as [r m'] eqn:Hrun.
    apply same_state_never_back.
    eapply (loadAllManifests_keeps (same fsm_state)); [|done].
    intros. by apply loadManifest_keeps.
  - destruct (unloadJob lbl overrideDisabled forceUnload m)
      as [r m'] eqn:Hrun.
    apply registry_kept_never_back. by eapply unloadJob_registry.
  - destruct (unloadJob_path path overrideDisabled forceUnload m)
      as [r m'] eqn:Hrun.
    apply registry_kept_never_back. by eapply unloadJob_path_registry.
  - done.
  - destruct (killJob lbl signame m) as [r m'] eqn:Hrun.
    apply registry_kept_never_back. by eapply killJob_registry.
  - unfold dumpJob, getJob. rewrite bind_run. by destruct (jobs m !! lbl).
  - unfold clearStateFile, never_back.
    destruct RELAUNCHD_UNIT_TESTS; simpl; lia.
Qed.

Lemma serve_all_never_back reqs (m : Manager) :
  never_back m (serve_all reqs m).
Proof.
  revert m. induction reqs as [|req reqs IH]; intros m; [done|].
  simpl. etrans; [apply serve_never_back|apply IH].
Qed.






End Advance.

(** ** Admission and the shutdown *)

Section ShutdownAdmission.
Context `{Collaborators} `{ControlCollaborators}.

(** C5 (as the code has it).  While the manager is in [GracefulShutdown],
    [loadManifest] on a document and [loadAllManifests] return false and
    leave the manager (so [pending_jobs] and [jobs]) as it was;
    [loadManifest] on a path parses before it looks at the state, so it
    returns false when the file parses and throws the parser's exception
    otherwise, the manager being left as it was in both cases.  This lasts
    as long as the manager is in [GracefulShutdown]: whatever operations
    follow the entry into that state, the manager is in [GracefulShutdown]
    or [Finished], and while it is in [GracefulShutdown] the calls are
    refused as said. *)
Theorem no_admission_during_shutdown reqs (m : Manager) :
  fsm_state m = GracefulShutdown →
  let m' := serve_all reqs m in
  (fsm_state m' = GracefulShutdown ∨ fsm_state m' = Finished) ∧
  (fsm_state m' = GracefulShutdown →
   (∀ jsondata path od fl,
      loadManifest jsondata path od fl m' = (Ok false, m')) ∧
   (∀ path od fl, loadAllManifests path od fl m' = (Ok false, m')) ∧
   (∀ path od fl,
      loadManifest_path path od fl m' =
        match manifest_parse path with
        | Ok _ => (Ok false, m')
        | Throw e => (Throw e, m')
        end)).
Proof.
  intros Hst. simpl. split.
  - pose proof (serve_all_never_back reqs m) as Hrank.
    unfold never_back in Hrank. rewrite Hst in Hrank.
    destruct (fsm_state (serve_all reqs m)); simpl in Hrank;
      [lia|lia|by left|by right].
  - apply refused_in_GracefulShutdown.
Qed.

End ShutdownAdmission.

(** ** Signalling a job *)

Section Signalling.
Context `{Collaborators} `{ControlCollaborators}.

Lemma killJob_cases l signame (m : Manager) :
  match getSignalByName signame, jobs m !! l with
  | Some signum, Some job =>
      killJob l signame m =
        (Ok (Job_killJob signum job).1,
         set_jobs (<[ l := (Job_killJob signum job).2 ]> (jobs m)) m)
  | _, _ => killJob l signame m = (Ok false, m)
  end.
Proof.
  unfold killJob, jobExists, getJob.
  destruct (getSignalByName signame) as [signum|]; [|done].
  rewrite bind_run. unfold gets. cbn beta iota.
  destruct (jobs m !! l) as [job|] eqn:Hjob.
  - rewrite bool_decide_true by eauto. simpl. rewrite bind_run, Hjob.
    cbn beta iota. by destruct (Job_killJob signum job).
  - by rewrite bool_decide_false by (intros [? ?]; done).
Qed.

(** X28.  [killJob] never throws: [getJob] is reached only for an active
    label.  It returns true only when the signal name is known, the label
    is active and [Job::killJob] returned true.  It makes no label active
    or inactive and touches no other job, nor [pending_jobs], the state,
    the state document or the trace. *)
Theorem killJob_effect l signame (m : Manager) :
  let rm := killJob l signame m in
  (∃ success, rm.1 = Ok success ∧
     (success = true →
      ∃ signum job, getSignalByName signame = Some signum ∧
                    jobs m !! l = Some job ∧
                    (Job_killJob signum job).1 = true)) ∧
  dom (jobs rm.2) = dom (jobs m) ∧
  (∀ l', l' ≠ l → jobs rm.2 !! l' = jobs m !! l') ∧
  pending_jobs rm.2 = pending_jobs m ∧ fsm_state rm.2 = fsm_state m ∧
  state_file rm.2 = state_file m ∧ trace rm.2 = trace m.
Proof.
  pose proof (killJob_cases l signame m) as Hcases. simpl.
  destruct (getSignalByName signame) as [signum|];
    [destruct (jobs m !! l) as [job|] eqn:Hjob|]; rewrite Hcases; simpl.
  - split; [|split_and!; try done].
    + eexists. split; [reflexivity|]. intros Hok. by exists signum, job.
    + rewrite dom_insert_L. apply set_eq. intros k.
      rewrite elem_of_union, elem_of_singleton, elem_of_dom.
      split; [intros [->|Hk]; eauto|by right].
    + intros l' Hne. by rewrite lookup_insert_ne.
  - split; [|done]. by exists false.
  - split; [|done]. by exists false.
Qed.

End Signalling.

(** * Concrete runs of the further properties *)

Lemma disjoint_jobs_check (m : Manager) :
  forallb (λ entry, bool_decide (jobs m !! entry.1 = None))
          (map_to_list (pending_jobs m)) = true →
  disjoint_jobs m.
Proof.
  intros Hall k [job Hk].
  rewrite forallb_forall in Hall.
  apply elem_of_map_to_list, list_elem_of_In, Hall in Hk.
  by apply bool_decide_eq_true in Hk.
Qed.

Lemma loadManifest_invalid_manifest_witness :
  @manifest_from_json Sample.env (JNum 3) = Throw (json_type_error 304) ∧
  @loadManifest Sample.env (JNum 3) "/tmp/three.json" true true Sample.m_idle
    = (Ok false, Sample.m_idle).
Proof.
  assert (@manifest_from_json Sample.env (JNum 3)
            = Throw (json_type_error 304)) as Hbad by reflexivity.
  split; [exact Hbad|].
  exact (@loadManifest_invalid_manifest Sample.env (JNum 3)
           "/tmp/three.json" true true Sample.m_idle _ Hbad).
Defined.

Lemma startAllJobs_promotes_witness :
  disjoint_jobs SampleControl.m_two ∧
  ∃ m', @startAllJobs Sample.env SampleControl.m_two = (Ok tt, m') ∧
        pending_jobs m' = ∅ ∧
        jobs SampleControl.m_two ⊆ jobs m' ∧
        @startAllJobs Sample.env m' = (Ok tt, m').
Proof.
  assert (disjoint_jobs SampleControl.m_two) as Hdisj
    by (apply disjoint_jobs_check; by vm_compute).
  split; [exact Hdisj|].
  destruct (@startAllJobs_promotes Sample.env SampleControl.m_two Hdisj)
    as (m' & Hrun & Hpending & _ & Hsub & _ & _ & _ & Hagain).
  exists m'. split; [exact Hrun|]. split; [exact Hpending|].
  split; [exact Hsub|exact Hagain].
Defined.

Lemma stopRunning_from_Running_witness :
  fsm_state Sample.m_one_job = Running ∧
  ∃ m', @stopRunning Sample.env Sample.m_one_job = (Ok tt, m') ∧
        @handleShutdownSignal Sample.env "SIGTERM" Sample.m_one_job
          = (Ok tt, m') ∧
        fsm_state m' = GracefulShutdown ∧
        dom (jobs m') = dom (jobs Sample.m_one_job).
Proof.
  assert (fsm_state Sample.m_one_job = Running) as Hst by (by vm_compute).
  split; [exact Hst|].
  destruct (@stopRunning_from_Running Sample.env "SIGTERM"
              Sample.m_one_job Hst)
    as (m' & Hstop & Hsig & Hstate & _ & _ & Hdom & _).
  exists m'. split; [exact Hstop|]. split; [exact Hsig|].
  split; [exact Hstate|exact Hdom].
Defined.

Lemma stopRunning_outside_Running_witness :
  fsm_state Sample.m_one_job_shutdown ≠ Running ∧
  @stopRunning Sample.env Sample.m_one_job_shutdown
    = (Ok tt, set_fsm_state Finished Sample.m_one_job_shutdown).
Proof.
  assert (fsm_state Sample.m_one_job_shutdown ≠ Running) as Hst
    by (vm_compute; discriminate).
  split; [exact Hst|].
  exact (@stopRunning_outside_Running Sample.env
           Sample.m_one_job_shutdown Hst).
Defined.

Lemma startRunning_in_Running_witness :
  fsm_state SampleControl.m_two = Running ∧
  @startRunning Sample.env SampleControl.m_two
    = @startAllJobs Sample.env SampleControl.m_two ∧
  fsm_state (@startRunning Sample.env SampleControl.m_two).2 = Running.
Proof.
  assert (fsm_state SampleControl.m_two = Running) as Hst
    by (by vm_compute).
  split; [exact Hst|].
  destruct (@startRunning_in_Running Sample.env SampleControl.m_two Hst)
    as (Hsame & _ & Hstate).
  split; [exact Hsame|exact Hstate].
Defined.

Lemma startRunning_from_Unconfigured_witness :
  (fsm_state Sample.m_unconfigured = Unconfigured ∧
   disjoint_jobs Sample.m_unconfigured ∧
   fsm_state SampleControl.m_flaky = Unconfigured ∧
   disjoint_jobs SampleControl.m_flaky) ∧
  (∃ m', @startRunning Sample.env Sample.m_unconfigured = (Ok tt, m') ∧
         fsm_state m' = Running ∧ pending_jobs m' = ∅ ∧
         signal_handlers m' = true ∧
         dom (jobs m') = ({[ "a"; "b" ]} : gset string)) ∧
  (∃ m1, @startRunning Sample.env SampleControl.m_flaky
           = (Throw (foreign_exception "filesystem error"), m1) ∧
         fsm_state m1 = Unconfigured ∧ jobs m1 = ∅ ∧
         is_Some (pending_jobs m1 !! "b") ∧
         trace m1 =
           [ CallAddSignal SIGPIPE; CallAddSignal SIGINT;
             CallAddSignal SIGTERM; CallBindAndListen "rpc.sock" 1024;
             CallAddSocketRead ]).
Proof.
  assert (fsm_state Sample.m_unconfigured = Unconfigured) as Hst
    by reflexivity.
  assert (disjoint_jobs Sample.m_unconfigured) as Hdisj
    by (apply disjoint_jobs_check; by vm_compute).
  assert (fsm_state SampleControl.m_flaky = Unconfigured) as Hst'
    by reflexivity.
  assert (disjoint_jobs SampleControl.m_flaky) as Hdisj'
    by (apply disjoint_jobs_check; by vm_compute).
  split; [exact (conj Hst (conj Hdisj (conj Hst' Hdisj')))|]. split.
  - destruct (@startRunning_from_Unconfigured Sample.env
                Sample.m_unconfigured Hst Hdisj) as [Hrun _].
    destruct (@loadDefaultManifests Sample.env
                (listening Sample.m_unconfigured)) as [[[]|e] m1] eqn:Hload;
      [|by vm_compute in Hload].
    destruct Hrun as (m' & Hrun & Hstate & Hpending & Hsig & Hjobs & _).
    exists m'. split; [exact Hrun|]. split; [exact Hstate|].
    split; [exact Hpending|]. split; [exact Hsig|].
    rewrite Hjobs. apply (f_equal (λ rm, pending_jobs rm.2)) in Hload.
    simpl in Hload. rewrite <- Hload. by vm_compute.
  - destruct (@startRunning_from_Unconfigured Sample.env
                SampleControl.m_flaky Hst' Hdisj') as [Hrun _].
    destruct (@loadDefaultManifests Sample.env
                (listening SampleControl.m_flaky)) as [[[]|e] m1] eqn:Hload;
      [by vm_compute in Hload|].
    destruct Hrun as (Hrun & Hstate & Hjobs & _).
    assert (e = foreign_exception "filesystem error" ∧
            is_Some (pending_jobs m1 !! "b") ∧
            trace m1 =
              [ CallAddSignal SIGPIPE; CallAddSignal SIGINT;
                CallAddSignal SIGTERM; CallBindAndListen "rpc.sock" 1024;
                CallAddSocketRead ]) as (-> & Hb & Htrace).
    { vm_compute in Hload. injection Hload as <- <-.
      split; [done|]. split; [vm_compute; eauto|done]. }
    exists m1. split; [exact Hrun|]. split; [exact Hstate|].
    split; [exact Hjobs|]. split; [exact Hb|exact Htrace].
Defined.

Lemma quiet_tick_witness :
  (forallb own_quiet_event
           [EvIpcMethod "delete_job" "a"; EvSignal SIGPIPE] = true ∧
   fsm_state Sample.m_shutdown = GracefulShutdown ∧
   jobs Sample.m_shutdown ≠ ∅) ∧
  ∃ m', @handleEvent Sample.env (Some 1000)
          [EvIpcMethod "delete_job" "a"; EvSignal SIGPIPE] Sample.m_shutdown
          = (Ok true, m') ∧
        jobs m' !! "a" = None ∧
        jobs m' !! "b" = jobs Sample.m_shutdown !! "b".
Proof.
  assert (forallb own_quiet_event
            [EvIpcMethod "delete_job" "a"; EvSignal SIGPIPE] = true)
    as Hquiet by reflexivity.
  assert (fsm_state Sample.m_shutdown = GracefulShutdown) as Hst
    by (by vm_compute).
  assert (jobs Sample.m_shutdown ≠ ∅) as Hjobs
    by (vm_compute; discriminate).
  split; [exact (conj Hquiet (conj Hst Hjobs))|].
  destruct (@quiet_tick Sample.env (Some 1000)
              [EvIpcMethod "delete_job" "a"; EvSignal SIGPIPE]
              Sample.m_shutdown Hquiet (or_intror (conj Hst Hjobs)))
    as (m' & Hrun & _ & _ & Hlookup & _).
  exists m'. split; [exact Hrun|]. split.
  - rewrite (Hlookup "a"). by vm_compute.
  - rewrite (Hlookup "b"). by vm_compute.
Defined.

Lemma graceful_shutdown_drains_witness :
  (fsm_state Sample.m_one_job_shutdown = GracefulShutdown ∧
   jobs Sample.m_one_job_shutdown ≠ ∅) ∧
  ∃ m1, @handleEvent Sample.env None [EvIpcMethod "delete_job" "a"]
          Sample.m_one_job_shutdown = (Ok true, m1) ∧
        jobs m1 = ∅ ∧
        @handleEvent Sample.env None [] m1
          = (Ok false, set_fsm_state Finished m1).
Proof.
  assert (fsm_state Sample.m_one_job_shutdown = GracefulShutdown) as Hst
    by (by vm_compute).
  assert (jobs Sample.m_one_job_shutdown ≠ ∅) as Hjobs
    by (vm_compute; discriminate).
  assert (∀ k, is_Some (jobs Sample.m_one_job_shutdown !! k) →
               EvIpcMethod "delete_job" k ∈ [EvIpcMethod "delete_job" "a"])
    as Hall.
  { intros k Hk. apply elem_of_dom in Hk.
    assert (dom (jobs Sample.m_one_job_shutdown) = ({[ "a" ]} : gset string))
      as Hdom by (by vm_compute).
    rewrite Hdom in Hk. apply elem_of_singleton in Hk as ->.
    apply list_elem_of_singleton. reflexivity. }
  split; [exact (conj Hst Hjobs)|].
  destruct (@graceful_shutdown_drains Sample.env None
              [EvIpcMethod "delete_job" "a"] Sample.m_one_job_shutdown
              Hst Hjobs eq_refl Hall)
    as (m1 & Hrun & Hempty & Hnext).
  exists m1. split; [exact Hrun|]. split; [exact Hempty|apply Hnext].
Defined.

Lemma state_document_schema_kept_witness :
  doc_follows_schema (state_file Sample.m_seeded) ∧
  ∃ doc', doc_follows_schema doc' ∧
          @overrideJobEnabled Sample.env "b" false Sample.m_seeded
            = (Ok tt, set_state_file doc' Sample.m_seeded).
Proof.
  assert (doc_follows_schema (state_file Sample.m_seeded)) as Hschema.
  { exists (<[ "SchemaVersion" := JNum 1 ]>
              {[ "Overrides" := JObj {[ "a" := Json.enabled_object true ]} ]}),
           {[ "a" := Json.enabled_object true ]}.
    split; [reflexivity|]. split; [by vm_compute|].
    intros l v [<- <-]%lookup_singleton_Some.
    by exists {[ "Enabled" := JBool true ]}, true. }
  split; [exact Hschema|].
  destruct (@state_document_schema_kept Sample.env Sample.m_seeded Hschema)
    as (Hoverride & _).
  destruct (Hoverride "b" false) as (doc' & Hschema' & Hrun).
  exists doc'. split; [exact Hschema'|exact Hrun].
Defined.


Lemma operations_on_inactive_label_witness :
  jobs SampleControl.m_two !! "b" = None ∧
  @unloadJob Sample.env "b" true true SampleControl.m_two
    = (Ok false, SampleControl.m_two) ∧
  @killJob SampleControl.control "b" "SIGTERM" SampleControl.m_two
    = (Ok false, SampleControl.m_two) ∧
  dumpJob "b" SampleControl.m_two
    = (Throw (out_of_range "unordered_map::at"), SampleControl.m_two).
Proof.
  assert (jobs SampleControl.m_two !! "b" = None) as Hnone
    by (by vm_compute).
  split; [exact Hnone|].
  destruct (@operations_on_inactive_label Sample.env SampleControl.control
              "b" SampleControl.m_two Hnone)
    as (Hunload & Hkill & Hdump & _).
  split; [apply Hunload|]. split; [apply Hkill|exact Hdump].
Defined.


Lemma no_admission_during_shutdown_witness :
  fsm_state Sample.m_shutdown = GracefulShutdown ∧
  @loadManifest Sample.env Sample.doc_b "/etc/relaunchd/c.json" true true
     Sample.m_shutdown = (Ok false, Sample.m_shutdown) ∧
  @loadAllManifests Sample.env "/etc/relaunchd" true true Sample.m_shutdown
    = (Ok false, Sample.m_shutdown) ∧
  @loadManifest_path Sample.env "/etc/relaunchd/b.json" true true
     Sample.m_shutdown = (Ok false, Sample.m_shutdown) ∧
  @loadManifest_path Sample.env "/etc/relaunchd/bad.json" true true
     Sample.m_shutdown
    = (Throw (foreign_exception "parse error"), Sample.m_shutdown).
Proof.
  assert (fsm_state Sample.m_shutdown = GracefulShutdown) as Hst
    by (by vm_compute).
  destruct (@no_admission_during_shutdown Sample.env SampleControl.control
              [] Sample.m_shutdown Hst) as [_ Hrefused].
  destruct (Hrefused Hst) as (Hload & Hall & Hpath).
  split; [exact Hst|]. split; [apply Hload|]. split; [apply Hall|].
  split; [exact (Hpath "/etc/relaunchd/b.json" true true)|
          exact (Hpath "/etc/relaunchd/bad.json" true true)].
Defined.
